(** * Retrieval-augmented chat engine: knowledge base, LLM client, chat engine

    A shallow embedding of [serving/knowledge_base.py] (class [KnowledgeBase]),
    [serving/llm_client.py] (class [LLMClient]) and
    [services/ml/serving/chat_engine.py] (class [ChatEngine]), with the
    properties of the retrieval and conversation protocol proved about it.

    Python values are modelled as follows.
    - [str] is [string]; a [list] is a [list]; a [dict] used as a map is a
      [gmap]; a dict with fixed keys is a record.
    - A [float] is the rational number it denotes ([Q]); comparisons are the
      exact ones, and [round(x, n)] is exact round-half-even on that value.
    - A call that may raise returns a [result]; the methods of [ChatEngine]
      also return the engine after the call, since they mutate it.
    - scikit-learn and numpy are an interface ([Numeric]) with the laws the
      code relies on; the network ([LLMClient.network]) and the clock
      ([ChatEngine.world]) are arguments of the calls that use them. *)

From Stdlib Require Import QArith Qround Lqa.
From stdpp Require Import gmap strings list sorting.

Local Open Scope string_scope.
Local Open Scope list_scope.
Local Open Scope Z_scope.

(** ** Python exceptions and fallible computations *)

Inductive exn :=
| ConnectionError (msg : string)       (* the builtin one *)
| RequestsConnectionError (msg : string) (* requests.ConnectionError *)
| RequestException (msg : string)      (* any other requests failure *)
| HTTPError (msg : string)             (* raised by raise_for_status *)
| JSONDecodeError
| KeyError (key : string)
| IndexError
| ValueError (msg : string)
| NotFittedError
| UnpicklingError
| FileNotFoundError (name : string).

(** [str(e)] *)
Definition exn_str (e : exn) : string :=
  match e with
  | ConnectionError m | RequestsConnectionError m | RequestException m
  | HTTPError m | ValueError m => m
  | JSONDecodeError => "Expecting value"
  | KeyError k => k
  | IndexError => "list index out of range"
  | NotFittedError => "The TF-IDF vectorizer is not fitted"
  | UnpicklingError => "invalid load key"
  | FileNotFoundError n => "No such file or directory: " +:+ n
  end.

Inductive result (A : Type) :=
| Ok (a : A)
| Raise (e : exn).
Arguments Ok {A} a.
Arguments Raise {A} e.

Definition bind {A B} (r : result A) (k : A → result B) : result B :=
  match r with
  | Ok a => k a
  | Raise e => Raise e
  end.

Notation "x ←! r ; k" := (bind r (λ x, k))
  (at level 20, r at level 100, k at level 200, right associativity,
   format "x  ←!  r ;  '/' k").

(** ** Python sequence operations *)

(** [l[i]] for a non-negative index [i]. *)
Definition py_index {A} (l : list A) (i : nat) : result A :=
  match l !! i with
  | Some x => Ok x
  | None => Raise IndexError
  end.

(** The position a slice bound denotes in a sequence of length [len]:
    negative bounds count from the end, and everything is clipped. *)
Definition slice_bound (len : nat) (b : Z) : nat :=
  Z.to_nat (Z.min (Z.of_nat len) (if b <? 0 then Z.max 0 (Z.of_nat len + b) else b)).

(** [l[:stop]] *)
Definition slice_to {A} (stop : Z) (l : list A) : list A :=
  take (slice_bound (length l) stop) l.

(** [l[start:]] *)
Definition slice_from {A} (start : Z) (l : list A) : list A :=
  drop (slice_bound (length l) start) l.

(** [sep.join(parts)] *)
Definition join (sep : string) (parts : list string) : string :=
  String.concat sep parts.

(** The newline character, for the [\n] of the Python literals. *)
Definition nl : string := String (Ascii.ascii_of_nat 10) EmptyString.

(** [c.isspace()] on an ASCII character. *)
Definition isspace (c : Ascii.ascii) : bool :=
  let n := Ascii.nat_of_ascii c in
  ((9 <=? n) && (n <=? 13) || (28 <=? n) && (n <=? 32))%nat.

Fixpoint lstrip (s : string) : string :=
  match s with
  | String c r => if isspace c then lstrip r else s
  | EmptyString => EmptyString
  end.

Fixpoint rstrip (s : string) : string :=
  match s with
  | String c r =>
      match rstrip r with
      | EmptyString => if isspace c then EmptyString else String c EmptyString
      | r' => String c r'
      end
  | EmptyString => EmptyString
  end.

(** [s.strip()] *)
Definition strip (s : string) : string := rstrip (lstrip s).

(** ** Floats as rationals *)

Definition Qltb (a b : Q) : bool := negb (Qle_bool b a).

(** Round-half-even of a rational to an integer. *)
Definition round_half_even (x : Q) : Z :=
  let f := Qfloor x in
  match (x - inject_Z f ?= 1 # 2)%Q with
  | Lt => f
  | Gt => f + 1
  | Eq => if Z.even f then f else f + 1
  end.

(** [round(x, ndigits)] *)
Definition py_round (x : Q) (ndigits : nat) : Q :=
  let scale := Z.to_pos (10 ^ Z.of_nat ndigits) in
  Qmake (round_half_even (x * inject_Z (Zpos scale))) scale.

(** ** scikit-learn and numpy

    [TfidfVectorizer.fit_transform], [cosine_similarity] and [np.argsort] are
    library code. The interface keeps what [KnowledgeBase] observes of them.
    - [fit_transform docs] is [None] when scikit-learn raises [ValueError]
      (empty vocabulary); otherwise it is the fitted vectorizer and the
      matrix with one row per document.
    - [cosine_similarity v m q] stands for
      [cosine_similarity(v.transform([q]), m).flatten()]; it is [None] when
      the dimensions of [v] and [m] are incompatible ([ValueError]).
    - [argsort s] are the indices that sort [s] in ascending order; numpy's
      default sort kind fixes no order among equal keys, and neither does
      the interface. *)
Class Numeric := {
  Vectorizer : Type;
  Matrix : Type;
  fit_transform : list string → option (Vectorizer * Matrix);
  cosine_similarity : Vectorizer → Matrix → string → option (list Q);
  argsort : list Q → list nat;
  fit_transform_scores docs v m q :
    fit_transform docs = Some (v, m) →
    ∃ s, cosine_similarity v m q = Some s ∧ length s = length docs;
  argsort_Permutation s : argsort s ≡ₚ seq 0 (length s);
  argsort_ascending s :
    StronglySorted (λ i j, (nth i s 0 <= nth j s 0)%Q) (argsort s);
}.

(** ** [KnowledgeBase] *)

Module KnowledgeBase.
Section KnowledgeBase.
Context `{Numeric}.

(** [self.vectorizer] when it is not [None]: a [TfidfVectorizer] object,
    fitted or not. *)
Inductive vectorizer_state :=
| Unfitted
| Fitted (v : Vectorizer).

Record t := mk {
  documents : list string;
  metadata : list (gmap string string);
  vectorizer : option vectorizer_state;
  tfidf_matrix : option Matrix;
}.

(** One entry of the list [query] returns. *)
Record hit := mk_hit {
  text : string;
  score : Q;
  hit_metadata : gmap string string;
}.

(** [KnowledgeBase()] *)
Definition init : t :=
  {| documents := []; metadata := []; vectorizer := None; tfidf_matrix := None |}.

Definition add (text category source : string) (kb : t) : t :=
  {| documents := documents kb ++ [text];
     metadata := metadata kb ++ [{[ "category" := category; "source" := source ]}];
     vectorizer := vectorizer kb;
     tfidf_matrix := tfidf_matrix kb |}.

(** [build_index] assigns a fresh vectorizer before it fits it, so a
    failing fit leaves an unfitted vectorizer next to the old matrix. *)
Definition build_index (kb : t) : result unit * t :=
  match fit_transform (documents kb) with
  | Some (v, m) =>
      (Ok (),
       {| documents := documents kb; metadata := metadata kb;
          vectorizer := Some (Fitted v); tfidf_matrix := Some m |})
  | None =>
      (Raise (ValueError "empty vocabulary"),
       {| documents := documents kb; metadata := metadata kb;
          vectorizer := Some Unfitted; tfidf_matrix := tfidf_matrix kb |})
  end.

(** The relevance floor of [query]. *)
Definition floor : Q := 0.02.

(** The loop of [query] over [top_idx]. *)
Fixpoint collect (kb : t) (scores : list Q) (top_idx : list nat) : result (list hit) :=
  match top_idx with
  | [] => Ok []
  | i :: rest =>
      s ←! py_index scores i;
      if Qltb floor s then
        d ←! py_index (documents kb) i;
        md ←! py_index (metadata kb) i;
        results ←! collect kb scores rest;
        Ok ({| text := d; score := py_round s 4; hit_metadata := md |} :: results)
      else collect kb scores rest
  end.

Definition query (kb : t) (question : string) (top_k : Z) : result (list hit) :=
  match vectorizer kb, tfidf_matrix kb with
  | None, _ | _, None => Ok []
  | Some Unfitted, Some _ => Raise NotFittedError
  | Some (Fitted v), Some m =>
      match cosine_similarity v m question with
      | None => Raise (ValueError "Incompatible dimension for X and Y matrices")
      | Some scores =>
          let top_idx := slice_to top_k (reverse (argsort scores)) in
          collect kb scores top_idx
      end
  end.

(** The default [top_k] of [query]. *)
Definition default_top_k : Z := 8.

(** *** Persistence

    A directory holds named files. A joblib file holds the pickled object,
    the JSON file the two arrays [save] writes. *)
Inductive file :=
| JoblibVectorizer (v : option vectorizer_state)
| JoblibMatrix (m : option Matrix)
| JsonDocuments (docs : list string) (meta : list (gmap string string)).

Definition vectorizer_file : string := "tfidf_vectorizer.joblib".
Definition matrix_file : string := "tfidf_matrix.joblib".
Definition documents_file : string := "documents.json".

(** A file system maps a directory and a file name to a file; [save]
    writes its three files under [path]. *)
Definition save (path : string) (kb : t) (fs : gmap (string * string) file)
    : gmap (string * string) file :=
  <[(path, documents_file) := JsonDocuments (documents kb) (metadata kb)]>
    (<[(path, matrix_file) := JoblibMatrix (tfidf_matrix kb)]>
       (<[(path, vectorizer_file) := JoblibVectorizer (vectorizer kb)]> fs)).

(** [joblib.load] of the vectorizer. A file that is not a pickle makes
    joblib raise; a pickle of another class would load as a mistyped
    attribute and is taken as an error too. *)
Definition load_vectorizer (path : string) (fs : gmap (string * string) file)
    : result (option vectorizer_state) :=
  match fs !! (path, vectorizer_file) with
  | None => Raise (FileNotFoundError vectorizer_file)
  | Some (JoblibVectorizer v) => Ok v
  | Some _ => Raise UnpicklingError
  end.

Definition load_matrix (path : string) (fs : gmap (string * string) file)
    : result (option Matrix) :=
  match fs !! (path, matrix_file) with
  | None => Raise (FileNotFoundError matrix_file)
  | Some (JoblibMatrix m) => Ok m
  | Some _ => Raise UnpicklingError
  end.

Definition load_documents (path : string) (fs : gmap (string * string) file)
    : result (list string * list (gmap string string)) :=
  match fs !! (path, documents_file) with
  | None => Raise (FileNotFoundError documents_file)
  | Some (JsonDocuments docs meta) => Ok (docs, meta)
  | Some _ => Raise JSONDecodeError
  end.

Definition load (path : string) (fs : gmap (string * string) file) : result t :=
  v ←! load_vectorizer path fs;
  m ←! load_matrix path fs;
  data ←! load_documents path fs;
  Ok {| documents := data.1; metadata := data.2;
        vectorizer := v; tfidf_matrix := m |}.

End KnowledgeBase.
End KnowledgeBase.

(** ** [LLMClient] *)

Module LLMClient.

Inductive provider_id := Ollama | Groq | OpenAI.

(** [self.provider], the lower-cased name the constructor accepted. *)
Definition provider_name (p : provider_id) : string :=
  match p with
  | Ollama => "ollama"
  | Groq => "groq"
  | OpenAI => "openai"
  end.

Record t := mk {
  provider : provider_id;
  base_url : string;
  model : string;
  api_key : option string;
}.

(** *** The network

    What [requests.post] does is the world's choice. It returns a response,
    raises [requests.ConnectionError], or raises another requests exception
    (a read timeout, for one). *)
Inductive transport (A : Type) :=
| Responded (r : A)
| ConnectionFailed (msg : string)
| RequestFailed (msg : string).
Arguments Responded {A} r.
Arguments ConnectionFailed {A} msg.
Arguments RequestFailed {A} msg.

(** The JSON body of a blocking reply, reduced to the one field the client
    reads: ["response"] for the local server, the content of the first
    choice for the hosted ones. *)
Inductive body :=
| NotJson
| Json (field : option string).

Record response := {
  status_code : Z;
  status_text : string;   (* the message of the HTTPError it would raise *)
  json : body;
}.

(** How the body of a streamed reply ends under [iter_lines]. *)
Inductive stream_end :=
| EndOfBody
| ConnectionLost (msg : string)   (* requests.ConnectionError *)
| StreamFailed (msg : string).    (* another requests exception *)

(** One line of the local server's newline-delimited JSON: an empty line,
    a line that is not JSON, or an object with its [response] and whether
    [done] is set. The token of a frame is a string, as the server sends
    it. *)
Inductive ndjson_line :=
| EmptyLine
| BadLine
| Frame (token : option string) (done : bool).

(** One line of a hosted provider's event stream, after its [data: ] prefix
    is removed. The content of a delta is a string, as the provider sends
    it. *)
Inductive sse_line :=
| SseEmpty
| SseDone                          (* the literal [DONE] marker *)
| SseBad                           (* invalid JSON, or no choices in it *)
| SseWrongShape (msg : string)     (* JSON that is no object with a list of
                                      choice objects: TypeError or
                                      AttributeError, with this message *)
| SseDelta (content : option string).

Record stream_response (L : Type) := {
  stream_status_code : Z;
  stream_status_text : string;
  lines : list L;
  ending : stream_end;
}.
Arguments stream_status_code {L} _.
Arguments stream_status_text {L} _.
Arguments lines {L} _.
Arguments ending {L} _.

(** The endpoints, as functions of what the client sends them. *)
Record network := {
  (* POST {base_url}/api/generate, stream false: base_url, model, prompt, system *)
  api_generate : string → string → string → string → transport response;
  (* POST {base_url}/api/generate, stream true *)
  api_generate_stream :
    string → string → string → string → transport (stream_response ndjson_line);
  (* POST {base_url}/chat/completions: base_url, api key, model, messages *)
  chat_completions :
    string → option string → string → list (string * string) → transport response;
  chat_completions_stream :
    string → option string → string → list (string * string)
    → transport (stream_response sse_line);
}.

Definition raise_for_status (status : Z) (msg : string) : result unit :=
  if (400 <=? status) && (status <? 600) then Raise (HTTPError msg) else Ok ().

(** The text of the [ConnectionError] that [_ollama_generate] raises. *)
Definition ollama_not_running : string :=
  "Ollama is not running. Start it:" +:+ nl +:+
  "  1. Install: https://ollama.com/download" +:+ nl +:+
  "  2. Run: ollama serve" +:+ nl +:+
  "  3. Pull model: ollama pull llama3.2:3b".

(** The fragment that [_ollama_stream] yields on a connection failure. *)
Definition ollama_stream_error : string :=
  "[Error] Ollama is not running. Install from https://ollama.com and run: ollama serve".

Definition _ollama_generate (net : network) (c : t) (prompt system : string)
    : result string :=
  match api_generate net (base_url c) (model c) prompt system with
  | ConnectionFailed _ => Raise (ConnectionError ollama_not_running)
  | RequestFailed msg => Raise (RequestException msg)
  | Responded r =>
      _ ←! raise_for_status (status_code r) (status_text r);
      match json r with
      | NotJson => Raise JSONDecodeError
      | Json field => Ok (strip (default "" field))
      end
  end.

(** The [messages] of a chat-completion request. *)
Definition completion_messages (prompt system : string) : list (string * string) :=
  (if decide (system = "") then [] else [("system", system)]) ++ [("user", prompt)].

Definition _openai_generate (net : network) (c : t) (prompt system : string)
    : result string :=
  match chat_completions net (base_url c) (api_key c) (model c)
          (completion_messages prompt system) with
  | ConnectionFailed msg => Raise (RequestsConnectionError msg)
  | RequestFailed msg => Raise (RequestException msg)
  | Responded r =>
      _ ←! raise_for_status (status_code r) (status_text r);
      match json r with
      | NotJson => Raise JSONDecodeError
      | Json None => Raise (KeyError "content")
      | Json (Some content) => Ok (strip content)
      end
  end.

Definition generate (net : network) (c : t) (prompt system : string) : result string :=
  match provider c with
  | Ollama => _ollama_generate net c prompt system
  | _ => _openai_generate net c prompt system
  end.

(** A generator run to its end: the fragments it yields, in order, and the
    exception that ends it, if one does. *)
Definition yielded : Type := list string * option exn.

Definition yield_then (tokens : list string) (rest : yielded) : yielded :=
  (tokens ++ rest.1, rest.2).

(** [if token := data.get(key)]: the field when it is a non-empty string. *)
Definition truthy (field : option string) : list string :=
  match field with
  | Some token => if decide (token = "") then [] else [token]
  | None => []
  end.

(** The loop of [_ollama_stream] over [r.iter_lines()]. *)
Fixpoint ollama_lines (ls : list ndjson_line) (e : stream_end) : yielded :=
  match ls with
  | [] =>
      match e with
      | EndOfBody => ([], None)
      | ConnectionLost _ => ([ollama_stream_error], None)
      | StreamFailed msg => ([], Some (RequestException msg))
      end
  | EmptyLine :: rest => ollama_lines rest e
  | BadLine :: _ => ([], Some JSONDecodeError)
  | Frame token done :: rest =>
      yield_then (truthy token) (if done then ([], None) else ollama_lines rest e)
  end.

Definition _ollama_stream (net : network) (c : t) (prompt system : string) : yielded :=
  match api_generate_stream net (base_url c) (model c) prompt system with
  | ConnectionFailed _ => ([ollama_stream_error], None)
  | RequestFailed msg => ([], Some (RequestException msg))
  | Responded r =>
      match raise_for_status (stream_status_code r) (stream_status_text r) with
      | Raise e => ([], Some e)
      | Ok _ => ollama_lines (lines r) (ending r)
      end
  end.

(** The loop of [_openai_stream]; every exception ends it with one fragment. *)
Fixpoint openai_lines (ls : list sse_line) (e : stream_end) : yielded :=
  match ls with
  | [] =>
      match e with
      | EndOfBody => ([], None)
      | ConnectionLost msg | StreamFailed msg => (["[Error] " +:+ msg], None)
      end
  | SseEmpty :: rest | SseBad :: rest => openai_lines rest e
  | SseDone :: _ => ([], None)
  | SseWrongShape msg :: _ => (["[Error] " +:+ msg], None)
  | SseDelta content :: rest => yield_then (truthy content) (openai_lines rest e)
  end.

Definition _openai_stream (net : network) (c : t) (prompt system : string) : yielded :=
  match chat_completions_stream net (base_url c) (api_key c) (model c)
          (completion_messages prompt system) with
  | ConnectionFailed msg | RequestFailed msg => (["[Error] " +:+ msg], None)
  | Responded r =>
      match raise_for_status (stream_status_code r) (stream_status_text r) with
      | Raise e => (["[Error] " +:+ exn_str e], None)
      | Ok _ => openai_lines (lines r) (ending r)
      end
  end.

Definition stream (net : network) (c : t) (prompt system : string) : yielded :=
  match provider c with
  | Ollama => _ollama_stream net c prompt system
  | _ => _openai_stream net c prompt system
  end.

End LLMClient.

(** ** [ChatEngine] *)

Module ChatEngine.
Section ChatEngine.
Context `{Numeric}.

Definition SYSTEM_PROMPT : string :=
  join nl [
    "You are **FitFlex AI**, an expert fitness and gym management assistant powered by real gym data.";
    "";
    "Your capabilities:";
    "- Personalized workout recommendations based on actual member demographics and performance data";
    "- Calorie burn predictions grounded in real exercise data";
    "- Progress analysis using body performance benchmarks";
    "- Attendance and churn risk insights from membership patterns";
    "- Nutrition and recovery advice backed by sports science";
    "";
    "Guidelines:";
    "- Always be encouraging, data-driven, and specific";
    "- When you reference statistics, mention they come from gym data";
    "- Give actionable advice with numbers (sets, reps, durations, calories)";
    "- If asked about a specific member, use the data context provided";
    "- For medical concerns, recommend consulting a healthcare professional";
    "- Keep responses concise but thorough — aim for 2-4 paragraphs";
    "- Use formatting (bold, bullets) for readability";
    ""
  ].

Inductive role := user | assistant.

(** One entry of a session: [{"role": ..., "content": ...}]. *)
Record entry := {
  msg_role : role;
  content : string;
}.

Record t := mk {
  llm : LLMClient.t;
  kb : option KnowledgeBase.t;
  conversations : gmap string (list entry);
  max_history : Z;
}.

(** [ChatEngine(llm, kb)] *)
Definition init (llm : LLMClient.t) (kb : option KnowledgeBase.t) : t :=
  {| llm := llm; kb := kb; conversations := ∅; max_history := 10 |}.

(** The clock and the network of one call: [time.perf_counter()] when the
    call starts and when generation is over. *)
Record world := {
  net : LLMClient.network;
  clock_start : Q;
  clock_end : Q;
}.

Definition elapsed_ms (w : world) : Q := ((clock_end w - clock_start w) * 1000)%Q.

(** The default [top_k] of [_retrieve_context]. *)
Definition retrieve_top_k : Z := 6.

Definition chunk (r : KnowledgeBase.hit) : string :=
  "[" +:+ default "data" (KnowledgeBase.hit_metadata r !! "category") +:+ "] "
  +:+ KnowledgeBase.text r.

Definition _retrieve_context (e : t) (query : string) (top_k : Z) : result string :=
  match kb e with
  | None => Ok ""
  | Some kb =>
      results ←! KnowledgeBase.query kb query top_k;
      match results with
      | [] => Ok ""
      | _ => Ok (join (nl +:+ nl) (chunk <$> results))
      end
  end.

Definition history_line (msg : entry) : string :=
  (match msg_role msg with user => "User" | assistant => "FitFlex AI" end)
  +:+ ": " +:+ content msg.

Definition _build_prompt (e : t) (message context : string) (history : list entry)
    : string :=
  join nl (
    (if decide (context = "") then []
     else ["━━━ GYM DATA CONTEXT ━━━"; context; "━━━ END CONTEXT ━━━" +:+ nl])
    ++ (match history with
        | [] => []
        | _ => ["━━━ CONVERSATION HISTORY ━━━"]
               ++ (history_line <$> slice_from (- max_history e) history)
               ++ ["━━━ END HISTORY ━━━" +:+ nl]
        end)
    ++ ["User: " +:+ message;
        nl +:+ "Respond helpfully based on the gym data context above:"]).

(** The prompt both [chat] and [stream_chat] send for a message. *)
Definition prompt_for (e : t) (message session_id context : string) : string :=
  _build_prompt e message context (default [] (conversations e !! session_id)).

(** "Store in history" and "Trim history": the two appends to the session's
    list, created empty when the session is new, and the cut to its last
    [max_history * 2] entries. *)
Definition remember (e : t) (session_id message response : string) : t :=
  let turns :=
    default [] (conversations e !! session_id)
    ++ [{| msg_role := user; content := message |}]
    ++ [{| msg_role := assistant; content := response |}] in
  let kept :=
    if Z.of_nat (length turns) >? max_history e * 2
    then slice_from (- max_history e * 2) turns
    else turns in
  {| llm := llm e; kb := kb e;
     conversations := <[session_id := kept]> (conversations e);
     max_history := max_history e |}.

(** The dict [chat] returns. *)
Record reply := {
  response : string;
  context_used : bool;
  chunks_retrieved : nat;
  inference_ms : Q;
  model : string;
  provider : string;
}.

(** The [try] of [chat]: the generated text, or the message of the
    [ConnectionError] that generation raised; other exceptions pass. *)
Definition generate_or_message (w : world) (e : t) (prompt : string) : result string :=
  match LLMClient.generate (net w) (llm e) prompt SYSTEM_PROMPT with
  | Raise (ConnectionError msg) => Ok msg
  | r => r
  end.

(** [len(self.kb.query(message)) if self.kb else 0] *)
Definition count_chunks (e : t) (message : string) : result nat :=
  match kb e with
  | Some kb =>
      results ←! KnowledgeBase.query kb message KnowledgeBase.default_top_k;
      Ok (length results)
  | None => Ok 0%nat
  end.

Definition chat (w : world) (message session_id : string) (e : t) : result reply * t :=
  match _retrieve_context e message retrieve_top_k with
  | Raise x => (Raise x, e)
  | Ok context =>
      let prompt := prompt_for e message session_id context in
      match generate_or_message w e prompt with
      | Raise x => (Raise x, e)
      | Ok response =>
          let e' := remember e session_id message response in
          (chunks ←! count_chunks e message;
           Ok {| response := response;
                 context_used := bool_decide (context ≠ "");
                 chunks_retrieved := chunks;
                 inference_ms := py_round (elapsed_ms w) 1;
                 model := LLMClient.model (llm e);
                 provider := LLMClient.provider_name (LLMClient.provider (llm e)) |},
           e')
      end
  end.

(** The JSON object of one server-sent event of [stream_chat]. *)
Inductive event :=
| Token (token : string)
| Done (inference_ms : Q) (model : string).

(** [stream_chat], run by a consumer that takes every event: the events
    yielded, the exception that ended the generator if one did, and the
    engine afterwards. *)
Definition stream_chat (w : world) (message session_id : string) (e : t)
    : (list event * option exn) * t :=
  match _retrieve_context e message retrieve_top_k with
  | Raise x => (([], Some x), e)
  | Ok context =>
      let prompt := prompt_for e message session_id context in
      let '(tokens, failure) := LLMClient.stream (net w) (llm e) prompt SYSTEM_PROMPT in
      let finish (full_response : list string) :=
        let response_text := join "" full_response in
        ((Token <$> full_response)
           ++ [Done (py_round (elapsed_ms w) 1) (LLMClient.model (llm e))],
         None,
         remember e session_id message response_text) in
      match failure with
      | None => finish tokens
      | Some (ConnectionError error_msg) => finish (tokens ++ [error_msg])
      | Some x => ((Token <$> tokens, Some x), e)
      end
  end.

Definition clear_history (session_id : string) (e : t) : t :=
  {| llm := llm e; kb := kb e;
     conversations := delete session_id (conversations e);
     max_history := max_history e |}.

(** The history of a session, empty when the session is unknown. *)
Definition session (e : t) (session_id : string) : list entry :=
  default [] (conversations e !! session_id).

(** *** Sequences of calls *)

Inductive call :=
| Chat (w : world) (message session_id : string)
| StreamChat (w : world) (message session_id : string)
| ClearHistory (session_id : string).

Definition step (e : t) (c : call) : t :=
  match c with
  | Chat w message session_id => (chat w message session_id e).2
  | StreamChat w message session_id => (stream_chat w message session_id e).2
  | ClearHistory session_id => clear_history session_id e
  end.

Definition run (calls : list call) (e : t) : t := foldl step e calls.

End ChatEngine.
End ChatEngine.

(** ** A stable argsort, and an instance of the numeric interface

    [stable_argsort] sorts as [np.argsort(s, kind="stable")] does: ascending
    scores, equal scores in index order. [query] asks for no kind, and
    numpy's default kind promises no order among equal scores: this is one
    of the orders the interface admits, [descending_ties_argsort] below is
    another, and no general fact depends on either. *)

Definition tie_leb (s : list Q) (i j : nat) : bool :=
  Qltb (nth i s 0%Q) (nth j s 0%Q)
  || (Qeq_bool (nth i s 0%Q) (nth j s 0%Q) && (i <=? j)%nat).

Definition tie_le (s : list Q) (i j : nat) : Prop := Is_true (tie_leb s i j).

Definition stable_argsort (s : list Q) : list nat :=
  merge_sort (tie_le s) (seq 0 (length s)).

(** Texts compared as single terms: the similarity of a question and a
    document is 1 when they are the same term and 0 otherwise, which is the
    cosine of their TF-IDF vectors when each text is one word. *)
Definition one_hot_scores (m : list string) (q : string) : list Q :=
  (λ d, if decide (d = q) then 1%Q else 0%Q) <$> m.

Definition one_hot_fit (docs : list string) : option (unit * list string) :=
  match docs with
  | [] => None
  | _ => Some ((), docs)
  end.

Lemma Qltb_lt a b : Qltb a b = true ↔ (a < b)%Q.
Proof.
  unfold Qltb. rewrite negb_true_iff. split.
  - intros H. apply Qnot_le_lt. intros Hle.
    apply Qle_bool_iff in Hle. congruence.
  - intros H. destruct (Qle_bool b a) eqn:E; [|done].
    apply Qle_bool_iff in E. exfalso. revert E. by apply Qlt_not_le.
Qed.

Lemma Qltb_ge a b : Qltb a b = false ↔ (b <= a)%Q.
Proof.
  unfold Qltb. rewrite negb_false_iff. apply Qle_bool_iff.
Qed.

Lemma tie_le_spec s i j :
  tie_le s i j ↔
  (nth i s 0 < nth j s 0)%Q ∨ ((nth i s 0 == nth j s 0)%Q ∧ (i ≤ j)%nat).
Proof.
  unfold tie_le, tie_leb.
  rewrite orb_True, andb_True, !Is_true_true, Qltb_lt, Qeq_bool_iff, Nat.leb_le.
  done.
Qed.

#[local] Instance tie_le_total s : Total (tie_le s).
Proof.
  intros i j. rewrite !tie_le_spec.
  destruct (Q_dec (nth i s 0%Q) (nth j s 0%Q)) as [[Hlt|Hgt]|Heq]; [by auto..|].
  destruct (Nat.le_ge_cases i j); [left|right]; right;
    (split; [done || by symmetry | done]).
Qed.

#[local] Instance tie_le_trans s : Transitive (tie_le s).
Proof.
  intros i j k. rewrite !tie_le_spec.
  intros [H1|[H1 L1]] [H2|[H2 L2]].
  - left. by eapply Qlt_trans.
  - left. by rewrite <- H2.
  - left. by rewrite H1.
  - right. split; [by rewrite H1 | lia].
Qed.

Lemma stable_argsort_Permutation s : stable_argsort s ≡ₚ seq 0 (length s).
Proof. apply merge_sort_Permutation. Qed.

Lemma stable_argsort_sorted s : StronglySorted (tie_le s) (stable_argsort s).
Proof. apply StronglySorted_merge_sort; apply _. Qed.

Lemma StronglySorted_weaken {A} (R1 R2 : relation A) l :
  (∀ x y, R1 x y → R2 x y) → StronglySorted R1 l → StronglySorted R2 l.
Proof.
  intros HR. induction 1 as [|x l Hl IH Hx]; constructor; [done|].
  eapply Forall_impl; eauto.
Qed.

Lemma stable_argsort_ascending s :
  StronglySorted (λ i j, (nth i s 0 <= nth j s 0)%Q) (stable_argsort s).
Proof.
  eapply StronglySorted_weaken; [|apply stable_argsort_sorted].
  intros i j [Hlt|[Heq _]]%tie_le_spec.
  - by apply Qlt_le_weak.
  - rewrite Heq. apply Qle_refl.
Qed.

Lemma one_hot_fit_scores docs (v : unit) m q :
  one_hot_fit docs = Some (v, m) →
  ∃ s, Some (one_hot_scores m q) = Some s ∧ length s = length docs.
Proof.
  intros Hfit. exists (one_hot_scores m q). split; [done|].
  unfold one_hot_scores. rewrite length_fmap.
  destruct docs; simplify_eq/=; done.
Qed.

Definition one_hot : Numeric := {|
  Vectorizer := unit;
  Matrix := list string;
  fit_transform := one_hot_fit;
  cosine_similarity := λ _ m q, Some (one_hot_scores m q);
  argsort := stable_argsort;
  fit_transform_scores := one_hot_fit_scores;
  argsort_Permutation := stable_argsort_Permutation;
  argsort_ascending := stable_argsort_ascending;
|}.

(** An argsort that is not stable: ascending scores, equal scores in
    descending index order ([[3; 2; 1; 0]] on the scores [[1; 1; 0; 0]]). *)
Definition tie_geb (s : list Q) (i j : nat) : bool :=
  Qltb (nth i s 0%Q) (nth j s 0%Q)
  || (Qeq_bool (nth i s 0%Q) (nth j s 0%Q) && (j <=? i)%nat).

Definition tie_ge (s : list Q) (i j : nat) : Prop := Is_true (tie_geb s i j).

Definition descending_ties_argsort (s : list Q) : list nat :=
  merge_sort (tie_ge s) (seq 0 (length s)).

Lemma tie_ge_spec s i j :
  tie_ge s i j ↔
  (nth i s 0 < nth j s 0)%Q ∨ ((nth i s 0 == nth j s 0)%Q ∧ (j ≤ i)%nat).
Proof.
  unfold tie_ge, tie_geb.
  rewrite orb_True, andb_True, !Is_true_true, Qltb_lt, Qeq_bool_iff, Nat.leb_le.
  done.
Qed.

#[local] Instance tie_ge_total s : Total (tie_ge s).
Proof.
  intros i j. rewrite !tie_ge_spec.
  destruct (Q_dec (nth i s 0%Q) (nth j s 0%Q)) as [[Hlt|Hgt]|Heq]; [by auto..|].
  destruct (Nat.le_ge_cases i j); [right|left]; right;
    (split; [done || by symmetry | done]).
Qed.

#[local] Instance tie_ge_trans s : Transitive (tie_ge s).
Proof.
  intros i j k. rewrite !tie_ge_spec.
  intros [H1|[H1 L1]] [H2|[H2 L2]].
  - left. by eapply Qlt_trans.
  - left. by rewrite <- H2.
  - left. by rewrite H1.
  - right. split; [by rewrite H1 | lia].
Qed.

Lemma descending_ties_argsort_Permutation s :
  descending_ties_argsort s ≡ₚ seq 0 (length s).
Proof. apply merge_sort_Permutation. Qed.

Lemma descending_ties_argsort_ascending s :
  StronglySorted (λ i j, (nth i s 0 <= nth j s 0)%Q) (descending_ties_argsort s).
Proof.
  eapply StronglySorted_weaken; [|apply StronglySorted_merge_sort; apply _].
  intros i j [Hlt|[Heq _]]%tie_ge_spec.
  - by apply Qlt_le_weak.
  - rewrite Heq. apply Qle_refl.
Qed.

(** The same texts and similarities as [one_hot], with the other argsort. *)
Definition one_hot_descending_ties : Numeric := {|
  Vectorizer := unit;
  Matrix := list string;
  fit_transform := one_hot_fit;
  cosine_similarity := λ _ m q, Some (one_hot_scores m q);
  argsort := descending_ties_argsort;
  fit_transform_scores := one_hot_fit_scores;
  argsort_Permutation := descending_ties_argsort_Permutation;
  argsort_ascending := descending_ties_argsort_ascending;
|}.

(** * Properties *)

(** ** Sequences *)

Lemma slice_bound_le len b : (slice_bound len b ≤ len)%nat.
Proof. unfold slice_bound. lia. Qed.

Lemma slice_bound_nonneg len b : 0 ≤ b → Z.of_nat (slice_bound len b) ≤ b.
Proof.
  intros Hb. unfold slice_bound.
  destruct (Z.ltb_spec b 0); lia.
Qed.

Lemma length_slice_to {A} (l : list A) stop :
  length (slice_to stop l) = slice_bound (length l) stop.
Proof.
  unfold slice_to. rewrite length_take. pose proof (slice_bound_le (length l) stop). lia.
Qed.

Lemma slice_to_sublist {A} (l : list A) stop : slice_to stop l `sublist_of` l.
Proof. apply sublist_take. Qed.

(** [l[-n:]] keeps the last [n] entries of a longer list. *)
Lemma slice_from_last {A} (l : list A) (n : Z) :
  0 < n → n < Z.of_nat (length l) →
  slice_from (- n) l = drop (length l - Z.to_nat n) l.
Proof.
  intros Hn Hlen. unfold slice_from, slice_bound. f_equal.
  destruct (Z.ltb_spec (- n) 0); lia.
Qed.

Lemma StronglySorted_sublist {A} (R : relation A) l1 l2 :
  l1 `sublist_of` l2 → StronglySorted R l2 → StronglySorted R l1.
Proof.
  induction 1 as [|x l1 l2 Hsub IH|x l1 l2 Hsub IH]; intros Hs.
  - constructor.
  - apply StronglySorted_cons in Hs as [Hx Hs]. apply StronglySorted_cons.
    split; [|by apply IH]. rewrite Forall_forall in Hx |- *.
    intros y Hy. apply Hx. by eapply elem_of_sublist.
  - apply StronglySorted_cons in Hs as [_ Hs]. by apply IH.
Qed.

Lemma StronglySorted_reverse {A} (R : relation A) l :
  StronglySorted R l → StronglySorted (flip R) (reverse l).
Proof.
  induction 1 as [|x l Hl IH Hx]; [constructor|].
  rewrite reverse_cons. apply StronglySorted_app_2; [|done|repeat constructor].
  intros y z Hy ->%list_elem_of_singleton.
  rewrite elem_of_reverse in Hy. rewrite Forall_forall in Hx.
  unfold flip. by apply Hx.
Qed.

(** In a strongly sorted list, earlier positions are related to later ones. *)
Lemma StronglySorted_lookup {A} (R : relation A) l a b x y :
  StronglySorted R l → l !! a = Some x → l !! b = Some y → (a < b)%nat → R x y.
Proof.
  intros Hs. revert a b. induction Hs as [|z l Hl IH Hz]; intros a b Ha Hb Hab.
  - done.
  - destruct b as [|b]; [lia|]. destruct a as [|a]; simplify_eq/=.
    + rewrite Forall_forall in Hz. apply Hz. by eapply list_elem_of_lookup_2.
    + eapply IH; eauto. lia.
Qed.

(** A sublist keeps the order of the list it is taken from. *)
Lemma sublist_lookup_lt {A} (l1 l2 : list A) a b x y :
  l1 `sublist_of` l2 → l1 !! a = Some x → l1 !! b = Some y → (a < b)%nat →
  ∃ a' b', l2 !! a' = Some x ∧ l2 !! b' = Some y ∧ (a' < b')%nat.
Proof.
  intros Hsub. revert a b.
  induction Hsub as [|z l1 l2 Hsub IH|z l1 l2 Hsub IH]; intros a b Ha Hb Hab.
  - done.
  - destruct b as [|b]; [lia|]. destruct a as [|a]; simplify_eq/=.
    + assert (y ∈ l2) as [b' Hb']%list_elem_of_lookup_1.
      { eapply elem_of_sublist; [|done]. by eapply list_elem_of_lookup_2. }
      exists 0%nat, (S b'). split_and!; [done..|lia].
    + destruct (IH a b) as (a' & b' & Ha' & Hb' & Hlt); [done..|lia|].
      exists (S a'), (S b'). split_and!; [done..|lia].
  - destruct (IH a b) as (a' & b' & Ha' & Hb' & Hlt); [done..|].
    exists (S a'), (S b'). split_and!; [done..|lia].
Qed.

(** ** The knowledge base *)

Module KnowledgeBaseFacts.
Import KnowledgeBase.
Section KnowledgeBaseFacts.
Context `{Numeric}.

#[local] Instance Qlt_decision (a b : Q) : Decision (a < b)%Q.
Proof.
  refine (cast_if (decide (Qltb a b = true))); by rewrite <- Qltb_lt.
Defined.

(** The indexes a client of the class can hold: a fresh one, changed by
    [add] and [build_index] (whether the fit succeeds or not), or loaded
    back from where [save] wrote it. *)
Inductive reachable : t → Prop :=
| reachable_init : reachable init
| reachable_add kb text category source :
    reachable kb → reachable (add text category source kb)
| reachable_build_index kb :
    reachable kb → reachable (build_index kb).2
| reachable_load kb path fs kb' :
    reachable kb → load path (save path kb fs) = Ok kb' → reachable kb'.

(** The documents and the metadata are parallel lists. *)
Definition aligned (kb : t) : Prop :=
  length (documents kb) = length (metadata kb).

(** A fitted vectorizer and a matrix are those of one fit, over the
    documents the index held then. *)
Definition consistent (kb : t) : Prop :=
  aligned kb ∧
  match vectorizer kb, tfidf_matrix kb with
  | Some (Fitted v), Some m =>
      ∃ docs, docs `prefix_of` documents kb ∧ fit_transform docs = Some (v, m)
  | Some Unfitted, _ => True
  | None, None => True
  | _, _ => False
  end.

(** The state a failing rebuild leaves: a new, unfitted vectorizer next to
    the matrix of the previous build. *)
Definition half_built (kb : t) : Prop :=
  vectorizer kb = Some Unfitted ∧ is_Some (tfidf_matrix kb).

(** [h] is what [query] reports for the document at index [i]. *)
Definition retrieved (kb : t) (scores : list Q) (i : nat) (h : hit) : Prop :=
  documents kb !! i = Some (text h) ∧
  metadata kb !! i = Some (hit_metadata h) ∧
  score h = py_round (nth i scores 0%Q) 4.

(** [add] called once per entry, in order. *)
Definition add_all (entries : list (string * string * string)) (kb : t) : t :=
  foldl (λ kb e, add e.1.1 e.1.2 e.2 kb) kb entries.

(** The indices whose documents [query] returns, in the order of the
    result: the best [top_k] that clear the floor. *)
Definition returned (scores : list Q) (top_k : Z) : list nat :=
  filter (λ i, (floor < nth i scores 0)%Q) (slice_to top_k (reverse (argsort scores))).

Lemma load_save path kb fs : load path (save path kb fs) = Ok kb.
Proof.
  unfold load, save, load_vectorizer, load_matrix, load_documents.
  rewrite lookup_insert_ne, lookup_insert_ne, lookup_insert_eq by done. simpl.
  rewrite lookup_insert_ne, lookup_insert_eq by done. simpl.
  rewrite lookup_insert_eq. simpl. by destruct kb.
Qed.

Lemma aligned_add text category source kb :
  aligned kb → aligned (add text category source kb).
Proof. unfold aligned. simpl. rewrite !length_app. simpl. lia. Qed.

Lemma aligned_build_index kb : aligned kb → aligned (build_index kb).2.
Proof. unfold aligned, build_index. by destruct (fit_transform _) as [[??]|]. Qed.

Lemma reachable_consistent kb : reachable kb → consistent kb.
Proof.
  induction 1 as [|kb text category source _ [Ha IH]|kb _ [Ha IH]|kb path fs kb' _ IH Hl].
  - by split.
  - split; [by apply aligned_add|]. simpl.
    destruct (vectorizer kb) as [[|v]|], (tfidf_matrix kb) as [m|]; try done.
    destruct IH as (docs & Hpre & Hfit). exists docs. split; [|done].
    by apply prefix_app_r.
  - split; [by apply aligned_build_index|]. unfold build_index.
    destruct (fit_transform (documents kb)) as [[v m]|] eqn:Hfit; simpl; [|done].
    by exists (documents kb).
  - rewrite load_save in Hl. by simplify_eq.
Qed.

Lemma collect_filter kb scores idx :
  aligned kb → (length scores ≤ length (documents kb))%nat →
  Forall (λ i, (i < length scores)%nat) idx →
  ∃ results,
    collect kb scores idx = Ok results ∧
    Forall2 (retrieved kb scores)
      (filter (λ i, (floor < nth i scores 0)%Q) idx) results.
Proof.
  intros Ha Hlen. induction 1 as [|i idx Hi _ (results & Hc & Hr)]; simpl.
  - exists []. split; [done|]. constructor.
  - destruct (lookup_lt_is_Some_2 scores i Hi) as [s Hs].
    assert (nth i scores 0%Q = s) as Hnth by (by apply nth_lookup_Some with (d := 0%Q) in Hs).
    unfold py_index at 1. rewrite Hs. simpl. rewrite filter_cons.
    destruct (Qltb floor s) eqn:Hclear.
    + destruct (lookup_lt_is_Some_2 (documents kb) i ltac:(lia)) as [d Hd].
      destruct (lookup_lt_is_Some_2 (metadata kb) i ltac:(unfold aligned in Ha; lia))
        as [md Hmd].
      unfold py_index. rewrite Hd, Hmd. simpl. rewrite Hc. simpl.
      eexists. split; [done|].
      rewrite decide_True by (rewrite Hnth; by apply Qltb_lt).
      constructor; [|done]. split_and!; simpl; [done..|by rewrite Hnth].
    + exists results. split; [done|].
      rewrite decide_False; [done|].
      rewrite Hnth. apply Qle_not_lt. by apply Qltb_ge.
Qed.

(** On a built index, [query] scores every row and runs its loop over the
    best [top_k] indices. *)
Lemma query_built kb v m question top_k :
  consistent kb → vectorizer kb = Some (Fitted v) → tfidf_matrix kb = Some m →
  ∃ scores,
    cosine_similarity v m question = Some scores ∧
    (length scores ≤ length (documents kb))%nat ∧
    query kb question top_k
    = collect kb scores (slice_to top_k (reverse (argsort scores))).
Proof.
  intros [Ha Hc] Hv Hm. unfold query. rewrite Hv, Hm in Hc |- *.
  destruct Hc as (docs & Hpre & Hfit).
  destruct (fit_transform_scores docs v m question Hfit) as (scores & Hs & Hlen).
  exists scores. rewrite Hs. split_and!; [done| |done].
  rewrite Hlen. by apply prefix_length.
Qed.

Lemma argsort_in_range scores i : i ∈ argsort scores → (i < length scores)%nat.
Proof.
  rewrite (argsort_Permutation scores), elem_of_seq. lia.
Qed.

Lemma argsort_NoDup scores : NoDup (argsort scores).
Proof. rewrite (argsort_Permutation scores). apply NoDup_seq. Qed.

Lemma top_idx_in_range scores top_k :
  Forall (λ i, (i < length scores)%nat) (slice_to top_k (reverse (argsort scores))).
Proof.
  apply Forall_forall. intros i Hi. apply argsort_in_range.
  apply elem_of_reverse. eapply elem_of_sublist; [done|apply slice_to_sublist].
Qed.

Lemma query_returned kb v m question top_k :
  reachable kb → vectorizer kb = Some (Fitted v) → tfidf_matrix kb = Some m →
  ∃ scores results,
    cosine_similarity v m question = Some scores ∧
    query kb question top_k = Ok results ∧
    Forall2 (retrieved kb scores) (returned scores top_k) results.
Proof.
  intros Hr%reachable_consistent Hv Hm.
  destruct (query_built kb v m question top_k Hr Hv Hm) as (scores & Hs & Hlen & Hq).
  destruct (collect_filter kb scores (slice_to top_k (reverse (argsort scores))))
    as (results & Hc & HF); [apply Hr|done|apply top_idx_in_range|].
  exists scores, results. by rewrite Hq.
Qed.

Lemma returned_sublist scores top_k :
  returned scores top_k `sublist_of` reverse (argsort scores).
Proof.
  unfold returned. etrans; [apply sublist_filter|apply slice_to_sublist].
Qed.

Lemma returned_length scores top_k :
  (length (returned scores top_k) ≤ slice_bound (length scores) top_k)%nat.
Proof.
  unfold returned. etrans; [apply length_filter|].
  rewrite length_slice_to, length_reverse.
  by rewrite (Permutation_length (argsort_Permutation scores)), length_seq.
Qed.

Lemma returned_NoDup scores top_k : NoDup (returned scores top_k).
Proof.
  eapply sublist_NoDup; [|apply returned_sublist].
  rewrite reverse_Permutation. apply argsort_NoDup.
Qed.

Lemma returned_in_range scores top_k i :
  i ∈ returned scores top_k → (i < length scores)%nat.
Proof.
  intros Hi. apply argsort_in_range, elem_of_reverse.
  eapply elem_of_sublist; [done|apply returned_sublist].
Qed.

Lemma collect_retrieved kb scores idx results :
  collect kb scores idx = Ok results →
  Forall (λ h, ∃ i, documents kb !! i = Some (text h)
                    ∧ metadata kb !! i = Some (hit_metadata h)) results.
Proof.
  revert results. induction idx as [|i idx IH]; intros results; simpl.
  - intros [= <-]. constructor.
  - unfold py_index.
    destruct (scores !! i) as [s|]; simpl; [|done].
    destruct (Qltb floor s); [|by apply IH].
    destruct (documents kb !! i) as [d|] eqn:Hd; simpl; [|done].
    destruct (metadata kb !! i) as [md|] eqn:Hmd; simpl; [|done].
    destruct (collect kb scores idx) as [rest|]; simpl; [|done].
    intros [= <-]. constructor; [by exists i|by apply IH].
Qed.

(** C1 (as amended). On every built index (vectorizer fitted and matrix
    present), for every question and every [top_k], [query] raises nothing
    and returns documents whose cosine similarity is strictly above the
    floor of 0.02, in order of non-increasing similarity, no document twice;
    it returns at most [top_k] of them when [top_k] is not negative (and at
    most the slice bound Python gives [[:top_k]] in general), and the empty
    list when no document clears the floor. *)
Theorem query_top_k kb v m question top_k :
  reachable kb → vectorizer kb = Some (Fitted v) → tfidf_matrix kb = Some m →
  ∃ scores idx results,
    cosine_similarity v m question = Some scores ∧
    query kb question top_k = Ok results ∧
    Forall2 (retrieved kb scores) idx results ∧
    (0 ≤ top_k → Z.of_nat (length results) ≤ top_k) ∧
    (length results ≤ slice_bound (length scores) top_k)%nat ∧
    Forall (λ i, (floor < nth i scores 0)%Q) idx ∧
    StronglySorted (λ i j, (nth j scores 0 <= nth i scores 0)%Q) idx ∧
    NoDup idx ∧
    (Forall (λ s, (s <= floor)%Q) scores → results = []).
Proof.
  intros Hr Hv Hm.
  destruct (query_returned kb v m question top_k Hr Hv Hm)
    as (scores & results & Hs & Hq & HF).
  exists scores, (returned scores top_k), results.
  pose proof (returned_length scores top_k) as Hlen.
  rewrite (Forall2_length _ _ _ HF) in Hlen.
  split_and!; try done.
  - intros Hk. pose proof (slice_bound_nonneg (length scores) top_k Hk). lia.
  - apply Forall_forall. by intros i [Hi _]%list_elem_of_filter.
  - eapply StronglySorted_sublist; [apply returned_sublist|].
    apply (StronglySorted_reverse _ _ (argsort_ascending scores)).
  - apply returned_NoDup.
  - intros Hlow. destruct (returned scores top_k) as [|i rest] eqn:Hret.
    { by apply Forall2_nil_inv_l in HF. }
    assert (i ∈ returned scores top_k) as Hi by (rewrite Hret; left).
    pose proof (returned_in_range _ _ _ Hi) as Hrange.
    apply list_elem_of_filter in Hi as [Hclear _].
    destruct (lookup_lt_is_Some_2 scores i Hrange) as [s Hi].
    rewrite (nth_lookup_Some _ _ 0%Q _ Hi) in Hclear.
    rewrite Forall_lookup in Hlow. apply Hlow in Hi.
    by apply Qlt_not_le in Hclear.
Qed.

(** C8 (as amended). The order of the documents [query] returns is the
    reverse of the order [np.argsort] gave their indices, for every argsort
    that sorts ascending: of two returned documents, equally scored or not,
    the one that comes first in the result is the one whose index argsort
    put later. Among equal scores the code fixes no other order, and none
    by insertion. *)
Theorem query_ties_reverse_argsort kb v m question top_k :
  reachable kb → vectorizer kb = Some (Fitted v) → tfidf_matrix kb = Some m →
  ∃ scores idx results,
    cosine_similarity v m question = Some scores ∧
    query kb question top_k = Ok results ∧
    Forall2 (retrieved kb scores) idx results ∧
    ∀ a b i j,
      idx !! a = Some i → idx !! b = Some j → (a < b)%nat →
      ∃ p q,
        argsort scores !! p = Some i ∧ argsort scores !! q = Some j ∧ (q < p)%nat.
Proof.
  intros Hr Hv Hm.
  destruct (query_returned kb v m question top_k Hr Hv Hm)
    as (scores & results & Hs & Hq & HF).
  exists scores, (returned scores top_k), results. split_and!; try done.
  intros a b i j Ha Hb Hab.
  destruct (sublist_lookup_lt _ _ _ _ _ _ (returned_sublist scores top_k) Ha Hb Hab)
    as (a' & b' & [Ha' Hla]%reverse_lookup_Some & [Hb' Hlb]%reverse_lookup_Some & Hlt).
  eexists _, _. split_and!; [exact Ha'|exact Hb'|lia].
Qed.

Lemma vectorizer_add_all entries kb :
  vectorizer (add_all entries kb) = vectorizer kb.
Proof.
  revert kb. induction entries as [|e entries IH]; intros kb; simpl; [done|].
  by rewrite IH.
Qed.

(** C9. On an index on which [build_index] was never called, however many
    documents were added (none included), [query] returns the empty list
    for every question and every [top_k], and raises nothing. *)
Theorem query_before_build entries question top_k :
  query (add_all entries init) question top_k = Ok [].
Proof.
  unfold query. by rewrite vectorizer_add_all.
Qed.

Lemma load_inv path fs kb :
  load path fs = Ok kb →
  fs !! (path, vectorizer_file) = Some (JoblibVectorizer (vectorizer kb)) ∧
  fs !! (path, matrix_file) = Some (JoblibMatrix (tfidf_matrix kb)) ∧
  fs !! (path, documents_file) = Some (JsonDocuments (documents kb) (metadata kb)).
Proof.
  unfold load, load_vectorizer, load_matrix, load_documents.
  destruct (fs !! (path, vectorizer_file)) as [[]|]; simpl; try done.
  destruct (fs !! (path, matrix_file)) as [[]|]; simpl; try done.
  destruct (fs !! (path, documents_file)) as [[]|]; simpl; try done.
  by intros [= <-].
Qed.

(** C10. The documents and the metadata stay parallel lists. They are so on
    a new index; [add] and [build_index] keep them so; [save] writes both
    lists and [load] reads them back as they were written, so that loading
    what was saved gives the same index; [query] and [save] do not change
    the index they are called on. Every entry [query] returns holds the text
    and the metadata found at one index. *)
Theorem documents_metadata_parallel :
  aligned init ∧
  (∀ kb, aligned kb →
     (∀ text category source, aligned (add text category source kb)) ∧
     aligned (build_index kb).2 ∧
     (∀ path fs, ∃ kb', load path (save path kb fs) = Ok kb' ∧ aligned kb')) ∧
  (∀ path fs kb docs meta,
     fs !! (path, documents_file) = Some (JsonDocuments docs meta) →
     load path fs = Ok kb →
     documents kb = docs ∧ metadata kb = meta) ∧
  (∀ kb question top_k results,
     query kb question top_k = Ok results →
     Forall (λ h, ∃ i, documents kb !! i = Some (text h)
                       ∧ metadata kb !! i = Some (hit_metadata h)) results).
Proof.
  split_and!.
  - done.
  - intros kb Ha. split_and!.
    + intros. by apply aligned_add.
    + by apply aligned_build_index.
    + intros path fs. exists kb. by rewrite load_save.
  - intros path fs kb docs meta Hfile (_ & _ & Hdocs)%load_inv.
    rewrite Hfile in Hdocs. by simplify_eq.
  - intros kb question top_k results. unfold query.
    destruct (vectorizer kb) as [[|v]|], (tfidf_matrix kb) as [m|];
      try (by intros [= <-]); try done.
    destruct (cosine_similarity v m question) as [scores|]; [|done].
    apply collect_retrieved.
Qed.


End KnowledgeBaseFacts.
End KnowledgeBaseFacts.

(** ** The chat engine *)

Module ChatEngineFacts.
Import ChatEngine.
Section ChatEngineFacts.
Context `{Numeric}.

(** The entries of a list of exchanges, each a user message and the
    assistant's reply to it. *)
Definition turns (pairs : list (string * string)) : list entry :=
  pairs ≫= λ p, [{| msg_role := user; content := p.1 |};
                 {| msg_role := assistant; content := p.2 |}].

(** The texts of the token events of a stream. *)
Definition tokens_of (events : list event) : list string :=
  events ≫= λ ev, match ev with Token token => [token] | Done _ _ => [] end.

(** What a session holds once an exchange is stored: its entries and the
    two new ones, without the oldest entries beyond [2 * max_history]. *)
Definition kept (e : t) (session_id message response : string) : list entry :=
  let entries :=
    session e session_id
    ++ [{| msg_role := user; content := message |};
        {| msg_role := assistant; content := response |}] in
  drop (length entries - Z.to_nat (2 * max_history e)) entries.

(** Retrieval cannot raise: the engine has no knowledge base, or one that
    the class built and that no failing rebuild left half built. *)
Definition retrieval_ready (e : t) : Prop :=
  ∀ base, kb e = Some base →
    KnowledgeBaseFacts.reachable base ∧ ¬ KnowledgeBaseFacts.half_built base.

(** Every session is a list of at most [max_history] exchanges. *)
Definition bounded (e : t) : Prop :=
  0 < max_history e ∧
  ∀ session_id, ∃ pairs,
    session e session_id = turns pairs ∧ Z.of_nat (length pairs) ≤ max_history e.

Lemma turns_snoc pairs message response :
  turns (pairs ++ [(message, response)])
  = turns pairs ++ [{| msg_role := user; content := message |};
                    {| msg_role := assistant; content := response |}].
Proof. unfold turns. by rewrite bind_app. Qed.

Lemma length_turns pairs : length (turns pairs) = (2 * length pairs)%nat.
Proof. induction pairs as [|p pairs IH]; simpl; [done|]. rewrite IH. lia. Qed.

Lemma drop_turns n pairs : drop (2 * n) (turns pairs) = turns (drop n pairs).
Proof.
  revert pairs. induction n as [|n IH]; intros pairs; [done|].
  destruct pairs as [|p pairs]; [done|].
  replace (2 * S n)%nat with (S (S (2 * n))) by lia. simpl. apply IH.
Qed.

Lemma tokens_of_stream full ms model :
  tokens_of ((Token <$> full) ++ [Done ms model]) = full.
Proof.
  unfold tokens_of. induction full as [|token full IH]; [done|].
  simpl. f_equal. apply IH.
Qed.

Lemma session_remember e session_id message response :
  0 < max_history e →
  session (remember e session_id message response) session_id
  = kept e session_id message response.
Proof.
  intros Hmax. unfold session, remember, kept. simpl.
  rewrite lookup_insert_eq. simpl. fold (session e session_id).
  set (entries := session e session_id ++ _).
  destruct (Z.gtb_spec (Z.of_nat (length entries)) (max_history e * 2)) as [Hgt|Hle].
  - replace (- max_history e * 2) with (- (2 * max_history e)) by lia.
    rewrite slice_from_last by lia. done.
  - replace (length entries - Z.to_nat (2 * max_history e))%nat with 0%nat by lia.
    done.
Qed.

Lemma session_remember_ne e session_id message response other :
  session_id ≠ other →
  session (remember e session_id message response) other = session e other.
Proof.
  intros Hne. unfold session, remember. simpl. by rewrite lookup_insert_ne.
Qed.

Lemma kept_turns e session_id message response pairs :
  0 < max_history e →
  session e session_id = turns pairs →
  Z.of_nat (length pairs) ≤ max_history e →
  ∃ pairs',
    kept e session_id message response = turns pairs' ∧
    Z.of_nat (length pairs') ≤ max_history e.
Proof.
  intros Hmax Hs Hlen. unfold kept. rewrite Hs, <- turns_snoc.
  set (all := pairs ++ [(message, response)]).
  exists (drop (length all - Z.to_nat (max_history e)) all). split.
  - rewrite <- drop_turns, length_turns. f_equal. lia.
  - rewrite length_drop. lia.
Qed.

Lemma bounded_init llm kb : bounded (init llm kb).
Proof.
  split; [done|]. intros session_id. exists []. unfold session. simpl.
  by rewrite lookup_empty.
Qed.

Lemma bounded_remember e session_id message response :
  bounded e → bounded (remember e session_id message response).
Proof.
  intros [Hmax Hb]. split; [done|]. intros other.
  destruct (decide (session_id = other)) as [<-|Hne].
  - rewrite session_remember by done.
    destruct (Hb session_id) as (pairs & Hs & Hlen).
    exact (kept_turns e session_id message response pairs Hmax Hs Hlen).
  - rewrite session_remember_ne by done. apply Hb.
Qed.

Lemma bounded_clear_history e session_id :
  bounded e → bounded (clear_history session_id e).
Proof.
  intros [Hmax Hb]. split; [done|]. intros other. unfold session. simpl.
  destruct (decide (session_id = other)) as [<-|Hne].
  - rewrite lookup_delete_eq. exists []. split; [done|simpl; lia].
  - rewrite lookup_delete_ne by done. apply Hb.
Qed.

(** The engine after [chat]: unchanged, or with the exchange stored. *)
Lemma chat_state w message session_id e :
  (chat w message session_id e).2 = e
  ∨ ∃ response,
      (chat w message session_id e).2 = remember e session_id message response.
Proof.
  unfold chat. destruct (_retrieve_context _ _ _) as [context|]; [|by left].
  destruct (generate_or_message _ _ _) as [response|]; [|by left].
  right. by exists response.
Qed.

Lemma chat_returned_state w message session_id e r :
  (chat w message session_id e).1 = Ok r →
  (chat w message session_id e).2 = remember e session_id message (response r).
Proof.
  unfold chat. destruct (_retrieve_context _ _ _) as [context|]; [|done].
  destruct (generate_or_message _ _ _) as [text|]; [|done]. simpl.
  destruct (count_chunks _ _) as [chunks|]; [|done]. simpl.
  by intros [= <-].
Qed.

(** The engine after [stream_chat]: unchanged, or with the exchange stored. *)
Lemma stream_chat_state w message session_id e :
  (stream_chat w message session_id e).2 = e
  ∨ ∃ response,
      (stream_chat w message session_id e).2
      = remember e session_id message response.
Proof.
  unfold stream_chat. destruct (_retrieve_context _ _ _) as [context|]; [|by left].
  destruct (LLMClient.stream _ _ _ _) as [tokens [[]|]]; simpl; eauto.
Qed.

Lemma stream_chat_completed_state w message session_id e events :
  (stream_chat w message session_id e).1 = (events, None) →
  (stream_chat w message session_id e).2
  = remember e session_id message (join "" (tokens_of events)).
Proof.
  unfold stream_chat. destruct (_retrieve_context _ _ _) as [context|]; [|done].
  destruct (LLMClient.stream _ _ _ _) as [tokens [[]|]]; simpl; try done.
  all: intros [= <-]; by rewrite tokens_of_stream.
Qed.

Lemma bounded_step e c : bounded e → bounded (step e c).
Proof.
  intros Hb. destruct c as [w message session_id|w message session_id|session_id]; simpl.
  - destruct (chat_state w message session_id e) as [->|[response ->]];
      [done|by apply bounded_remember].
  - destruct (stream_chat_state w message session_id e) as [->|[response ->]];
      [done|by apply bounded_remember].
  - by apply bounded_clear_history.
Qed.

Lemma bounded_run calls e : bounded e → bounded (run calls e).
Proof.
  revert e. induction calls as [|c calls IH]; intros e Hb; [done|].
  apply IH. by apply bounded_step.
Qed.

Lemma max_history_run calls e : max_history (run calls e) = max_history e.
Proof.
  revert e. induction calls as [|c calls IH]; intros e; [done|].
  simpl. rewrite IH.
  destruct c as [w message sid|w message sid|sid]; simpl; [| |done].
  - by destruct (chat_state w message sid e) as [->|[response ->]].
  - by destruct (stream_chat_state w message sid e) as [->|[response ->]].
Qed.

(** C3. After any sequence of [chat], [stream_chat] and [clear_history]
    calls on a new engine, every session is a list of user/assistant pairs,
    of even length, of at most [2 * max_history] entries, [max_history]
    being 10; and a turn that completes stores the session's entries and
    the two new ones without the oldest entries beyond that bound. *)
Theorem session_memory_bounded llm kb calls session_id :
  let e := run calls (init llm kb) in
  max_history e = 10 ∧
  (∃ pairs,
     session e session_id = turns pairs ∧ Z.of_nat (length pairs) ≤ max_history e) ∧
  Nat.Even (length (session e session_id)) ∧
  Z.of_nat (length (session e session_id)) ≤ 2 * max_history e ∧
  (∀ w message r,
     (chat w message session_id e).1 = Ok r →
     session (chat w message session_id e).2 session_id
     = kept e session_id message (response r)) ∧
  (∀ w message events,
     (stream_chat w message session_id e).1 = (events, None) →
     session (stream_chat w message session_id e).2 session_id
     = kept e session_id message (join "" (tokens_of events))).
Proof.
  intros e.
  assert (max_history e = 10) as Hten by apply max_history_run.
  pose proof (bounded_run calls _ (bounded_init llm kb)) as [Hmax Hb].
  fold e in Hmax, Hb. destruct (Hb session_id) as (pairs & Hs & Hlen).
  split_and!.
  - done.
  - by exists pairs.
  - rewrite Hs, length_turns. by exists (length pairs).
  - rewrite Hs, length_turns. lia.
  - intros w message r Hr.
    rewrite (chat_returned_state _ _ _ _ _ Hr). by apply session_remember.
  - intros w message events Hev.
    rewrite (stream_chat_completed_state _ _ _ _ _ Hev). by apply session_remember.
Qed.

Lemma query_total base question top_k :
  KnowledgeBaseFacts.reachable base → ¬ KnowledgeBaseFacts.half_built base →
  ∃ results, KnowledgeBase.query base question top_k = Ok results.
Proof.
  intros Hr Hhalf.
  destruct (KnowledgeBase.vectorizer base) as [[|v]|] eqn:Hv,
    (KnowledgeBase.tfidf_matrix base) as [m|] eqn:Hm.
  - destruct Hhalf. split; [done|]. by rewrite Hm.
  - exists []. unfold KnowledgeBase.query. by rewrite Hv, Hm.
  - destruct (KnowledgeBaseFacts.query_returned base v m question top_k Hr Hv Hm)
      as (scores & results & _ & Hq & _). by exists results.
  - exists []. unfold KnowledgeBase.query. by rewrite Hv, Hm.
  - exists []. unfold KnowledgeBase.query. by rewrite Hv.
  - exists []. unfold KnowledgeBase.query. by rewrite Hv.
Qed.

Lemma retrieve_context_total e query top_k :
  retrieval_ready e → ∃ context, _retrieve_context e query top_k = Ok context.
Proof.
  intros Hready. unfold _retrieve_context.
  destruct (kb e) as [base|] eqn:Hkb; [|by eexists].
  destruct (Hready base Hkb) as [Hr Hhalf].
  destruct (query_total base query top_k Hr Hhalf) as [results ->]. simpl.
  destruct results; by eexists.
Qed.

Lemma count_chunks_total e message :
  retrieval_ready e → ∃ chunks, count_chunks e message = Ok chunks.
Proof.
  intros Hready. unfold count_chunks.
  destruct (kb e) as [base|] eqn:Hkb; [|by eexists].
  destruct (Hready base Hkb) as [Hr Hhalf].
  destruct (query_total base message KnowledgeBase.default_top_k Hr Hhalf)
    as [results ->].
  by eexists.
Qed.

(** [chat] returns when retrieval does and generation gives a text or the
    message of a connection error. *)
Lemma chat_returns w message session_id e context text :
  retrieval_ready e →
  _retrieve_context e message retrieve_top_k = Ok context →
  generate_or_message w e (prompt_for e message session_id context) = Ok text →
  ∃ r,
    chat w message session_id e = (Ok r, remember e session_id message text) ∧
    response r = text ∧
    context_used r = bool_decide (context ≠ "") ∧
    count_chunks e message = Ok (chunks_retrieved r) ∧
    inference_ms r = py_round (elapsed_ms w) 1 ∧
    model r = LLMClient.model (llm e) ∧
    provider r = LLMClient.provider_name (LLMClient.provider (llm e)).
Proof.
  intros Hready Hc Hg. unfold chat. rewrite Hc, Hg.
  destruct (count_chunks_total e message Hready) as [chunks ->]. simpl.
  eexists. split; [done|]. by simpl.
Qed.

(** [chat] raises what generation raises, the builtin [ConnectionError]
    apart, and stores nothing then. *)
Lemma chat_propagates w message session_id e context x :
  _retrieve_context e message retrieve_top_k = Ok context →
  generate_or_message w e (prompt_for e message session_id context) = Raise x →
  chat w message session_id e = (Raise x, e).
Proof. intros Hc Hg. unfold chat. by rewrite Hc, Hg. Qed.

(** [stream_chat] raises what the backend's stream raises, the builtin
    [ConnectionError] apart, after the tokens that came before; it yields
    no completion event and stores nothing then. *)
Lemma stream_chat_propagates w message session_id e context tokens x :
  _retrieve_context e message retrieve_top_k = Ok context →
  LLMClient.stream (net w) (llm e) (prompt_for e message session_id context)
    SYSTEM_PROMPT = (tokens, Some x) →
  (∀ msg, x ≠ ConnectionError msg) →
  stream_chat w message session_id e = ((Token <$> tokens, Some x), e).
Proof.
  intros Hc Hs Hx. unfold stream_chat. rewrite Hc, Hs.
  destruct x; try done. by destruct (Hx msg).
Qed.

(** The local server's stream never ends by the builtin [ConnectionError]:
    a connection failure is one more fragment of the stream. *)
Lemma ollama_stream_unreachable net c prompt system msg :
  LLMClient.provider c = LLMClient.Ollama →
  LLMClient.api_generate_stream net (LLMClient.base_url c) (LLMClient.model c)
    prompt system = LLMClient.ConnectionFailed msg →
  LLMClient.stream net c prompt system = ([LLMClient.ollama_stream_error], None).
Proof.
  intros Hp Hnet. unfold LLMClient.stream, LLMClient._ollama_stream.
  by rewrite Hp, Hnet.
Qed.

Lemma generate_unreachable net c prompt system msg :
  LLMClient.provider c = LLMClient.Ollama →
  LLMClient.api_generate net (LLMClient.base_url c) (LLMClient.model c) prompt system
  = LLMClient.ConnectionFailed msg →
  LLMClient.generate net c prompt system
  = Raise (ConnectionError LLMClient.ollama_not_running).
Proof.
  intros Hp Hnet. unfold LLMClient.generate, LLMClient._ollama_generate.
  by rewrite Hp, Hnet.
Qed.

(** C2 (as amended). When the local server is the provider and cannot be
    reached, and retrieval is ready, [chat] raises nothing: it returns a
    reply whose text is the remediation message of the connection error,
    whose [context_used] tells whether retrieval found a context, and it
    stores the exchange. (An exception of generation that is not the builtin
    [ConnectionError] is not caught.) *)
Theorem chat_backend_unreachable w message session_id e :
  retrieval_ready e →
  LLMClient.provider (llm e) = LLMClient.Ollama →
  (∀ prompt system, ∃ msg,
     LLMClient.api_generate (net w) (LLMClient.base_url (llm e))
       (LLMClient.model (llm e)) prompt system
     = LLMClient.ConnectionFailed msg) →
  ∃ r context,
    chat w message session_id e
    = (Ok r, remember e session_id message LLMClient.ollama_not_running) ∧
    response r = LLMClient.ollama_not_running ∧
    _retrieve_context e message retrieve_top_k = Ok context ∧
    context_used r = bool_decide (context ≠ "") ∧
    model r = LLMClient.model (llm e) ∧
    provider r = "ollama".
Proof.
  intros Hready Hp Hnet.
  destruct (retrieve_context_total e message retrieve_top_k Hready) as [context Hc].
  destruct (Hnet (prompt_for e message session_id context) SYSTEM_PROMPT) as [msg Hmsg].
  destruct (chat_returns w message session_id e context LLMClient.ollama_not_running)
    as (r & Hchat & Hresp & Hused & _ & _ & Hmodel & Hprov); [done..| |].
  { unfold generate_or_message.
    by rewrite (generate_unreachable _ _ _ _ msg Hp Hmsg). }
  exists r, context. rewrite Hp in Hprov. by split_and!.
Qed.







End ChatEngineFacts.
End ChatEngineFacts.

(** ** Concrete indexes, backends and runs *)

Module Examples.
Import KnowledgeBase KnowledgeBaseFacts ChatEngineFacts.
#[local] Existing Instance one_hot.
Local Open Scope Q_scope.

(** Two documents with the same text, told apart by their source. *)
Definition kb2 : KnowledgeBase.t :=
  (build_index (add "cardio" "gym" "b" (add "cardio" "gym" "a" init))).2.

Definition kb3 : KnowledgeBase.t :=
  (build_index (add "cardio" "gym" "c"
                  (add "cardio" "gym" "b" (add "cardio" "gym" "a" init)))).2.

(** Seven documents that all match the question [cardio]. *)
Definition kb7 : KnowledgeBase.t :=
  (build_index
     (add_all ((λ source, ("cardio", "gym", source))
                 <$> ["a"; "b"; "c"; "d"; "e"; "f"; "g"]) init)).2.

Definition local_llm : LLMClient.t :=
  {| LLMClient.provider := LLMClient.Ollama;
     LLMClient.base_url := "http://localhost:11434";
     LLMClient.model := "llama3.2:3b";
     LLMClient.api_key := None |}.

(** No server listens: every request fails to connect. *)
Definition unreachable : LLMClient.network :=
  {| LLMClient.api_generate := λ _ _ _ _, LLMClient.ConnectionFailed "Connection refused";
     LLMClient.api_generate_stream := λ _ _ _ _, LLMClient.ConnectionFailed "Connection refused";
     LLMClient.chat_completions := λ _ _ _ _, LLMClient.ConnectionFailed "Connection refused";
     LLMClient.chat_completions_stream :=
       λ _ _ _ _, LLMClient.ConnectionFailed "Connection refused" |}.

(** The server answers every request with the given error status. *)
Definition failing (status : Z) (msg : string) : LLMClient.network :=
  let r := {| LLMClient.status_code := status; LLMClient.status_text := msg;
              LLMClient.json := LLMClient.NotJson |} in
  let s L := {| LLMClient.stream_status_code := status;
                LLMClient.stream_status_text := msg;
                LLMClient.lines := @nil L; LLMClient.ending := LLMClient.EndOfBody |} in
  {| LLMClient.api_generate := λ _ _ _ _, LLMClient.Responded r;
     LLMClient.api_generate_stream := λ _ _ _ _, LLMClient.Responded (s _);
     LLMClient.chat_completions := λ _ _ _ _, LLMClient.Responded r;
     LLMClient.chat_completions_stream := λ _ _ _ _, LLMClient.Responded (s _) |}.

(** The server answers every prompt with the same text, whole or in three
    tokens and a final frame. *)
Definition great_workout : LLMClient.network :=
  let r := {| LLMClient.status_code := 200; LLMClient.status_text := "OK";
              LLMClient.json := LLMClient.Json (Some "Great workout!") |} in
  {| LLMClient.api_generate := λ _ _ _ _, LLMClient.Responded r;
     LLMClient.api_generate_stream := λ _ _ _ _,
       LLMClient.Responded
         {| LLMClient.stream_status_code := 200;
            LLMClient.stream_status_text := "OK";
            LLMClient.lines :=
              [LLMClient.Frame (Some "Great") false;
               LLMClient.Frame (Some " workout") false;
               LLMClient.Frame (Some "!") false;
               LLMClient.Frame None true];
            LLMClient.ending := LLMClient.EndOfBody |};
     LLMClient.chat_completions := λ _ _ _ _, LLMClient.Responded r;
     LLMClient.chat_completions_stream := λ _ _ _ _,
       LLMClient.Responded
         {| LLMClient.stream_status_code := 200;
            LLMClient.stream_status_text := "OK";
            LLMClient.lines := [LLMClient.SseDelta (Some "Great workout!"); LLMClient.SseDone];
            LLMClient.ending := LLMClient.EndOfBody |} |}.

(** The server streams a token, a line that is not JSON, and the rest of
    its reply. *)
Definition garbled : LLMClient.network :=
  let r := {| LLMClient.status_code := 200; LLMClient.status_text := "OK";
              LLMClient.json := LLMClient.Json (Some "Great workout!") |} in
  {| LLMClient.api_generate := λ _ _ _ _, LLMClient.Responded r;
     LLMClient.api_generate_stream := λ _ _ _ _,
       LLMClient.Responded
         {| LLMClient.stream_status_code := 200;
            LLMClient.stream_status_text := "OK";
            LLMClient.lines :=
              [LLMClient.Frame (Some "Great") false;
               LLMClient.BadLine;
               LLMClient.Frame (Some " workout!") false;
               LLMClient.Frame None true];
            LLMClient.ending := LLMClient.EndOfBody |};
     LLMClient.chat_completions := λ _ _ _ _, LLMClient.Responded r;
     LLMClient.chat_completions_stream := λ _ _ _ _,
       LLMClient.Responded
         {| LLMClient.stream_status_code := 200;
            LLMClient.stream_status_text := "OK";
            LLMClient.lines :=
              [LLMClient.SseDelta (Some "Great");
               LLMClient.SseBad;
               LLMClient.SseDelta (Some " workout!");
               LLMClient.SseDone];
            LLMClient.ending := LLMClient.EndOfBody |} |}.


(** A call that takes a quarter of a second. *)
Definition during (net : LLMClient.network) : ChatEngine.world :=
  {| ChatEngine.net := net; ChatEngine.clock_start := 1; ChatEngine.clock_end := 1.25 |}.

Definition engine2 : ChatEngine.t := ChatEngine.init local_llm (Some kb2).
Definition engine7 : ChatEngine.t := ChatEngine.init local_llm (Some kb7).

(** A client of a hosted provider, and an engine on it. *)
Definition groq_llm : LLMClient.t :=
  {| LLMClient.provider := LLMClient.Groq;
     LLMClient.base_url := "https://api.groq.com/openai/v1";
     LLMClient.model := "llama-3.1-8b-instant";
     LLMClient.api_key := Some "secret" |}.

Definition groq_engine : ChatEngine.t := ChatEngine.init groq_llm (Some kb2).

(** The two-document index over the backend whose argsort is not stable. *)
Definition kb2_descending_ties : @KnowledgeBase.t one_hot_descending_ties :=
  (@build_index one_hot_descending_ties
     (@add one_hot_descending_ties "cardio" "gym" "b"
        (@add one_hot_descending_ties "cardio" "gym" "a"
           (@init one_hot_descending_ties)))).2.

Lemma reachable_kb2 : reachable kb2.
Proof. unfold kb2. repeat constructor. Qed.

Lemma retrieval_ready_engine2 : retrieval_ready engine2.
Proof.
  intros base [= <-]. split; [apply reachable_kb2|]. by intros [[=] _].
Qed.

(** C1, witness: the two-document index, asked for one document. *)
Lemma query_top_k_witness :
  ∃ results, query kb2 "cardio" 1 = Ok results ∧ (Z.of_nat (length results) ≤ 1)%Z.
Proof.
  destruct (query_top_k kb2 () ["cardio"; "cardio"] "cardio" 1)
    as (scores & idx & results & _ & Hq & _ & Hk & _).
  - apply reachable_kb2.
  - reflexivity.
  - reflexivity.
  - exists results. split; [exact Hq|]. apply Hk. lia.
Defined.

(** C1, counterexample: with [top_k = -1] the slice drops the last of three
    candidates, and [query] returns two documents, which is more than
    [top_k]. *)
Lemma query_negative_top_k :
  ∃ results,
    query kb3 "cardio" (-1) = Ok results ∧
    length results = 2%nat ∧ (-1 < Z.of_nat (length results))%Z.
Proof.
  eexists. split; [vm_compute; reflexivity|]. split; [reflexivity|]. simpl. lia.
Qed.

(** C8, counterexample: the two documents score the same and the one from
    source [a] was added first. Over a backend whose argsort is stable
    (ascending scores, equal scores in index order: [[0; 1]] here), [query]
    reverses that order and returns the document from source [b] first. *)
Lemma query_ties_earliest_first_fails :
  (λ md : gmap string string, md !! "source") <$> metadata kb2 = [Some "a"; Some "b"] ∧
  argsort (one_hot_scores ["cardio"; "cardio"] "cardio") = [0; 1]%nat ∧
  ∃ first second,
    query kb2 "cardio" 8 = Ok [first; second] ∧
    (score first == score second) ∧
    hit_metadata first !! "source" = Some "b" ∧
    hit_metadata second !! "source" = Some "a".
Proof.
  split; [reflexivity|]. split; [vm_compute; reflexivity|]. eexists _, _.
  split; [vm_compute; reflexivity|]. split_and!; reflexivity.
Qed.

(** The same index over the backend whose argsort puts equal scores in
    descending index order ([[1; 0]] here): the reversal returns the
    document from source [a] first. Which of the two orders a run shows is
    the sort's choice, not the code's. *)
Lemma query_ties_earliest_first_possible :
  (λ md : gmap string string, md !! "source") <$> metadata kb2_descending_ties
  = [Some "a"; Some "b"] ∧
  @argsort one_hot_descending_ties (one_hot_scores ["cardio"; "cardio"] "cardio")
  = [1; 0]%nat ∧
  ∃ first second,
    @query one_hot_descending_ties kb2_descending_ties "cardio" 8
    = Ok [first; second] ∧
    (score first == score second) ∧
    hit_metadata first !! "source" = Some "a" ∧
    hit_metadata second !! "source" = Some "b".
Proof.
  split; [reflexivity|]. split; [vm_compute; reflexivity|]. eexists _, _.
  split; [vm_compute; reflexivity|]. split_and!; reflexivity.
Qed.

(** C8, witness: the two-document index; the document returned first is
    the one argsort put last. *)
Lemma query_ties_reverse_argsort_witness :
  ∃ scores idx results,
    Some (one_hot_scores ["cardio"; "cardio"] "cardio") = Some scores ∧
    query kb2 "cardio" 8 = Ok results ∧
    Forall2 (retrieved kb2 scores) idx results ∧
    ∀ a b i j,
      idx !! a = Some i → idx !! b = Some j → (a < b)%nat →
      ∃ p q,
        argsort scores !! p = Some i ∧ argsort scores !! q = Some j ∧ (q < p)%nat.
Proof.
  apply (query_ties_reverse_argsort kb2 () ["cardio"; "cardio"] "cardio" 8).
  - apply reachable_kb2.
  - reflexivity.
  - reflexivity.
Defined.



(** C10, witness: one more document on the two-document index, a rebuild,
    and a query. *)
Lemma documents_metadata_parallel_witness :
  aligned (add "yoga" "gym" "c" kb2) ∧
  aligned (build_index kb2).2 ∧
  ∀ results,
    query kb2 "cardio" 8 = Ok results →
    Forall (λ h, ∃ i, documents kb2 !! i = Some (text h)
                      ∧ metadata kb2 !! i = Some (hit_metadata h)) results.
Proof.
  destruct documents_metadata_parallel as (_ & Hkeep & _ & Hquery).
  destruct (Hkeep kb2) as (Hadd & Hbuild & _); [reflexivity|].
  split; [apply Hadd|]. split; [apply Hbuild|].
  intros results. apply Hquery.
Defined.

(** C3, witness: a session after twelve turns holds the last ten. *)
Lemma session_memory_bounded_witness :
  let e := ChatEngine.run
             (replicate 12 (ChatEngine.Chat (during great_workout) "cardio" "s"))
             (ChatEngine.init local_llm None) in
  length (ChatEngine.session e "s") = 20%nat ∧
  ∀ r,
    (ChatEngine.chat (during great_workout) "again" "s" e).1 = Ok r →
    ChatEngine.session (ChatEngine.chat (during great_workout) "again" "s" e).2 "s"
    = kept e "s" "again" (ChatEngine.response r).
Proof.
  intros e. split; [reflexivity|].
  destruct (session_memory_bounded local_llm None
              (replicate 12 (ChatEngine.Chat (during great_workout) "cardio" "s")) "s")
    as (_ & _ & _ & _ & Hchat & _).
  intros r. apply Hchat.
Defined.

(** C2, counterexample: the local server answers with status 500;
    [raise_for_status] raises [HTTPError], no handler catches it, and [chat]
    raises it to its caller. *)
Lemma chat_raises_http_error :
  (ChatEngine.chat (during (failing 500 "500 Server Error")) "cardio" "default" engine2).1
  = Raise (HTTPError "500 Server Error").
Proof. vm_compute. reflexivity. Qed.

(** C2, witness: the local server is unreachable. *)
Lemma chat_backend_unreachable_witness :
  ∃ r context,
    ChatEngine.chat (during unreachable) "cardio" "default" engine2
    = (Ok r, ChatEngine.remember engine2 "default" "cardio" LLMClient.ollama_not_running) ∧
    ChatEngine.response r = LLMClient.ollama_not_running ∧
    ChatEngine._retrieve_context engine2 "cardio" ChatEngine.retrieve_top_k = Ok context ∧
    ChatEngine.context_used r = bool_decide (context ≠ "") ∧
    ChatEngine.model r = "llama3.2:3b" ∧
    ChatEngine.provider r = "ollama".
Proof.
  apply (chat_backend_unreachable (during unreachable) "cardio" "default" engine2).
  - apply retrieval_ready_engine2.
  - reflexivity.
  - intros prompt system. eexists. reflexivity.
Defined.

(** C4, the abort. The backend streams a token, a line that is not JSON and
    the rest of its reply, or it answers the streaming request with status
    404. With a hosted provider, [_openai_stream] skips the bad line and
    turns the error status into a fragment, and [stream_chat] ends with its
    completion event and stores the exchange. With the local server,
    [_ollama_stream] catches [requests.ConnectionError] only: [stream_chat]
    raises [JSONDecodeError] after the first token, or [HTTPError] before
    any, yields no completion event and stores nothing. *)
Theorem stream_chat_aborts_on_malformed_frame :
  let completion model :=
    ChatEngine.Done (py_round (ChatEngine.elapsed_ms (during garbled)) 1) model in
  ChatEngine.stream_chat (during garbled) "cardio" "default" engine2
  = ([ChatEngine.Token "Great"], Some JSONDecodeError, engine2) ∧
  ChatEngine.stream_chat (during garbled) "cardio" "default" groq_engine
  = ([ChatEngine.Token "Great"; ChatEngine.Token " workout!";
      completion "llama-3.1-8b-instant"], None,
     ChatEngine.remember groq_engine "default" "cardio" "Great workout!") ∧
  ChatEngine.stream_chat (during (failing 404 "404 Client Error: Not Found"))
    "cardio" "default" engine2
  = ([], Some (HTTPError "404 Client Error: Not Found"), engine2) ∧
  ChatEngine.stream_chat (during (failing 404 "404 Client Error: Not Found"))
    "cardio" "default" groq_engine
  = ([ChatEngine.Token "[Error] 404 Client Error: Not Found";
      completion "llama-3.1-8b-instant"], None,
     ChatEngine.remember groq_engine "default" "cardio"
       "[Error] 404 Client Error: Not Found").
Proof. intros completion. split_and!; vm_compute; reflexivity. Qed.



(** C7, the recount. Seven documents match the question: retrieval, with
    [top_k = 6], finds six of them and puts six chunks in the context, and
    the reply of [chat] reports seven, the length of a second query made
    with the default [top_k] of 8. *)
Theorem chat_chunks_retrieved_recount :
  ∃ r retrieved,
    (ChatEngine.chat (during great_workout) "cardio" "default" engine7).1 = Ok r ∧
    query kb7 "cardio" ChatEngine.retrieve_top_k = Ok retrieved ∧
    length retrieved = 6%nat ∧
    ChatEngine.chunks_retrieved r = 7%nat.
Proof.
  eexists _, _. split; [vm_compute; reflexivity|].
  split; [vm_compute; reflexivity|]. split; reflexivity.
Qed.

End Examples.

(** * More of the client, the index builder, the engine factory and the API *)

(** ** Text *)

(** [c.lower()] on an ASCII character; other bytes are left as they are. *)
Definition ascii_lower (c : Ascii.ascii) : Ascii.ascii :=
  let n := Ascii.nat_of_ascii c in
  if ((65 <=? n) && (n <=? 90))%nat then Ascii.ascii_of_nat (n + 32) else c.

(** [s.lower()]. No character outside ASCII lowers to a letter of the names
    this file compares lowered strings with. *)
Fixpoint lower (s : string) : string :=
  match s with
  | String c r => String (ascii_lower c) (lower r)
  | EmptyString => EmptyString
  end.

(** [needle in haystack] on strings. *)
Fixpoint contains (haystack needle : string) : bool :=
  String.prefix needle haystack
  || match haystack with
     | String _ rest => contains rest needle
     | EmptyString => false
     end.

(** [s.startswith(p)] *)
Definition startswith (s p : string) : bool := String.prefix p s.

(** [s[n:]] on strings, for [n] not negative. *)
Fixpoint string_drop (n : nat) (s : string) : string :=
  match n, s with
  | S n, String _ r => string_drop n r
  | _, _ => s
  end.

(** [a or b] on optional strings: [a] when it is a non-empty string. *)
Definition or_else (a b : option string) : option string :=
  match a with
  | Some s => if decide (s = "") then b else Some s
  | None => b
  end.

(** [a or d] when [d] is a string. *)
Definition or_default (a : option string) (d : string) : string :=
  match a with
  | Some s => if decide (s = "") then d else s
  | None => d
  end.

(** ** [LLMClient]: construction, availability, models, multi-turn chat *)

Module LLMClientSetup.
Import LLMClient.

Definition OLLAMA_DEFAULT_URL : string := "http://localhost:11434".
Definition OLLAMA_DEFAULT_MODEL : string := "llama3.2:3b".

(** [LLMClient(provider, model, base_url, api_key)], with [os.environ] as
    [environ]. *)
Definition __init__ (environ : gmap string string) (provider : string)
    (model base_url api_key : option string) : result LLMClient.t :=
  let self_provider := lower provider in
  if decide (self_provider = "ollama") then
    let env_url := or_else (environ !! "OLLAMA_BASE_URL") (environ !! "OLLAMA_URL") in
    let env_model := environ !! "OLLAMA_MODEL" in
    Ok {| LLMClient.provider := Ollama;
          LLMClient.base_url := or_default (or_else env_url base_url) OLLAMA_DEFAULT_URL;
          LLMClient.model := or_default (or_else env_model model) OLLAMA_DEFAULT_MODEL;
          LLMClient.api_key := None |}
  else if decide (self_provider = "groq") then
    Ok {| LLMClient.provider := Groq;
          LLMClient.base_url := or_default base_url "https://api.groq.com/openai/v1";
          LLMClient.model := or_default model "llama-3.1-8b-instant";
          LLMClient.api_key :=
            Some (or_default api_key (default "" (environ !! "GROQ_API_KEY"))) |}
  else if decide (self_provider = "openai") then
    Ok {| LLMClient.provider := OpenAI;
          LLMClient.base_url := or_default base_url "https://api.openai.com/v1";
          LLMClient.model := or_default model "gpt-4o-mini";
          LLMClient.api_key :=
            Some (or_default api_key (default "" (environ !! "OPENAI_API_KEY"))) |}
  else Raise (ValueError ("Unknown LLM provider: " +:+ provider)).

(** The [llm] section of [config.yaml], a mapping of strings. *)
Definition create_client_from_config (environ : gmap string string)
    (config : gmap string (gmap string string)) : result LLMClient.t :=
  let llm_cfg := default ∅ (config !! "llm") in
  __init__ environ (default "ollama" (llm_cfg !! "provider"))
    (llm_cfg !! "model") (llm_cfg !! "base_url") (llm_cfg !! "api_key").

(** The body of [GET /api/tags]: the names of the installed models, when it
    is JSON and every entry of ["models"] has a name. *)
Inductive tags_body :=
| TagsBad
| Tags (models : option (list string)).

Record tags_response := {
  tags_status_code : Z;
  tags_status_text : string;
  tags_json : tags_body;
}.

(** The endpoints of the local server beside generation. *)
Record registry := {
  (* GET {base_url}/api/tags *)
  api_tags : string → transport tags_response;
  (* POST {base_url}/api/pull: base_url, model name; the status of the reply *)
  api_pull : string → string → transport Z;
  (* POST {base_url}/api/chat: base_url, model, messages *)
  api_chat : string → string → list (string * string) → transport response;
}.

(** [bool(self.api_key)] *)
Definition has_key (c : LLMClient.t) : bool :=
  match api_key c with
  | Some key => bool_decide (key ≠ "")
  | None => false
  end.

Definition is_available (reg : registry) (c : LLMClient.t) : bool :=
  match provider c with
  | Ollama =>
      match api_tags reg (base_url c) with
      | Responded r => bool_decide (tags_status_code r = 200)
      | _ => false
      end
  | _ => has_key c
  end.

Definition list_models (reg : registry) (c : LLMClient.t) : list string :=
  match provider c with
  | Ollama =>
      match api_tags reg (base_url c) with
      | Responded r =>
          match raise_for_status (tags_status_code r) (tags_status_text r), tags_json r with
          | Ok _, Tags (Some names) => names
          | _, _ => []
          end
      | _ => []
      end
  | _ => [model c]
  end.

Definition ensure_model (reg : registry) (c : LLMClient.t) : bool :=
  match provider c with
  | Ollama =>
      if existsb (λ m, contains m (model c)) (list_models reg c) then true
      else
        match api_pull reg (base_url c) (model c) with
        | Responded status => bool_decide (status = 200)
        | _ => false
        end
  | _ => true
  end.

(** The [messages] a multi-turn request sends. *)
Definition with_system (system : string) (messages : list (string * string))
    : list (string * string) :=
  (if decide (system = "") then [] else [("system", system)]) ++ messages.

(** [LLMClient.chat(messages, system)] *)
Definition chat (net : network) (reg : registry) (c : LLMClient.t)
    (messages : list (string * string)) (system : string) : result string :=
  match provider c with
  | Ollama =>
      match api_chat reg (base_url c) (model c) (with_system system messages) with
      | ConnectionFailed _ => Raise (ConnectionError "Ollama is not running.")
      | RequestFailed msg => Raise (RequestException msg)
      | Responded r =>
          _ ←! raise_for_status (status_code r) (status_text r);
          match json r with
          | NotJson => Raise JSONDecodeError
          | Json field => Ok (strip (default "" field))
          end
      end
  | _ =>
      match chat_completions net (base_url c) (api_key c) (model c)
              (with_system system messages) with
      | ConnectionFailed msg => Raise (RequestsConnectionError msg)
      | RequestFailed msg => Raise (RequestException msg)
      | Responded r =>
          _ ←! raise_for_status (status_code r) (status_text r);
          match json r with
          | NotJson => Raise JSONDecodeError
          | Json None => Raise (KeyError "content")
          | Json (Some content) => Ok (strip content)
          end
      end
  end.

End LLMClientSetup.

Module LLMClientFacts.
Import LLMClient LLMClientSetup.

(** The names the constructor accepts, lower-cased. *)
Definition provider_names : list string := ["ollama"; "groq"; "openai"].

Lemma rstrip_rstrip s : rstrip (rstrip s) = rstrip s.
Proof.
  induction s as [|c r IH]; [done|]. simpl.
  destruct (rstrip r) as [|d r'] eqn:Hr.
  - destruct (isspace c) eqn:Hc; [done|]. simpl. by rewrite Hc.
  - simpl in *. by rewrite IH.
Qed.

(** A string that does not start with white space. *)
Definition starts_clean (s : string) : Prop :=
  match s with
  | String c _ => isspace c = false
  | EmptyString => True
  end.

Lemma starts_clean_lstrip s : starts_clean (lstrip s).
Proof.
  induction s as [|c r IH]; [done|]. simpl.
  destruct (isspace c) eqn:Hc; [done|]. simpl. done.
Qed.

Lemma lstrip_starts_clean s : starts_clean s → lstrip s = s.
Proof. destruct s as [|c r]; [done|]. simpl. by intros ->. Qed.

Lemma starts_clean_rstrip s : starts_clean s → starts_clean (rstrip s).
Proof.
  destruct s as [|c r]; [done|]. simpl. intros Hc.
  destruct (rstrip r); [by rewrite Hc|done].
Qed.

Lemma strip_strip s : strip (strip s) = strip s.
Proof.
  unfold strip. rewrite lstrip_starts_clean.
  - apply rstrip_rstrip.
  - apply starts_clean_rstrip, starts_clean_lstrip.
Qed.

(** X1. What [generate] returns is trimmed: stripping it again changes
    nothing, whatever the provider and the reply. *)
Theorem generate_trimmed net c prompt system text :
  generate net c prompt system = Ok text → strip text = text.
Proof.
  unfold generate, _ollama_generate, _openai_generate.
  destruct (provider c).
  - destruct (api_generate _ _ _ _ _) as [r| |]; try done.
    destruct (raise_for_status _ _); [|done]. simpl.
    destruct (json r) as [|field]; [done|]. intros [= <-]. apply strip_strip.
  - destruct (chat_completions _ _ _ _ _) as [r| |]; try done.
    destruct (raise_for_status _ _); [|done]. simpl.
    destruct (json r) as [|[content|]]; try done. intros [= <-]. apply strip_strip.
  - destruct (chat_completions _ _ _ _ _) as [r| |]; try done.
    destruct (raise_for_status _ _); [|done]. simpl.
    destruct (json r) as [|[content|]]; try done. intros [= <-]. apply strip_strip.
Qed.

Lemma truthy_nonempty field : Forall (λ token, token ≠ "") (truthy field).
Proof.
  destruct field as [token|]; simpl; [|constructor].
  destruct (decide (token = "")); repeat constructor; done.
Qed.

Lemma ollama_lines_nonempty ls e :
  Forall (λ token, token ≠ "") (ollama_lines ls e).1.
Proof.
  induction ls as [|l ls IH]; simpl.
  - destruct e; repeat constructor; done.
  - destruct l as [| |token fin]; simpl; [done|constructor|].
    apply Forall_app. split; [apply truthy_nonempty|].
    destruct fin; [constructor|done].
Qed.

Lemma openai_lines_nonempty ls e :
  Forall (λ token, token ≠ "") (openai_lines ls e).1.
Proof.
  induction ls as [|l ls IH]; simpl.
  - destruct e; repeat constructor; done.
  - destruct l as [| | |msg|content]; simpl;
      [done|constructor|done|repeat constructor; done|].
    apply Forall_app. split; [apply truthy_nonempty|done].
Qed.

(** X2. [stream] never yields an empty fragment, whatever the provider and
    whatever the network does: empty tokens of the backend are dropped and
    the error fragments are not empty. *)
Theorem stream_fragments_nonempty net c prompt system :
  Forall (λ token, token ≠ "") (stream net c prompt system).1.
Proof.
  unfold stream, _ollama_stream, _openai_stream.
  destruct (provider c).
  - destruct (api_generate_stream _ _ _ _ _) as [r| |]; simpl;
      [|repeat constructor; done|constructor].
    destruct (raise_for_status _ _); [apply ollama_lines_nonempty|constructor].
  - destruct (chat_completions_stream _ _ _ _ _) as [r| |]; simpl;
      [|repeat constructor; done..].
    destruct (raise_for_status _ _);
      [apply openai_lines_nonempty|repeat constructor; done].
  - destruct (chat_completions_stream _ _ _ _ _) as [r| |]; simpl;
      [|repeat constructor; done..].
    destruct (raise_for_status _ _);
      [apply openai_lines_nonempty|repeat constructor; done].
Qed.

Lemma openai_lines_returns ls e : (openai_lines ls e).2 = None.
Proof.
  induction ls as [|l ls IH]; simpl; [by destruct e|].
  by destruct l.
Qed.

Lemma openai_stream_returns net c prompt system :
  (_openai_stream net c prompt system).2 = None.
Proof.
  unfold _openai_stream.
  destruct (chat_completions_stream _ _ _ _ _) as [r| |]; try done.
  destruct (raise_for_status _ _); [apply openai_lines_returns|done].
Qed.

Lemma ollama_lines_failure ls e x :
  (ollama_lines ls e).2 = Some x →
  x = JSONDecodeError ∨ ∃ msg, x = RequestException msg.
Proof.
  induction ls as [|l ls IH]; simpl.
  - destruct e; intros [=]; eauto.
  - destruct l as [| |token fin]; simpl; [done|intros [=]; eauto|].
    destruct fin; [done|apply IH].
Qed.

(** X3. How a stream can end. With a hosted provider the generator never
    raises: every failure is turned into a fragment. With the local server
    it raises only an HTTP error, a malformed line, or a requests failure
    that is not a connection failure; it never raises the builtin
    [ConnectionError] that [stream_chat] catches. *)
Theorem stream_failures net c prompt system :
  (provider c ≠ Ollama → (stream net c prompt system).2 = None) ∧
  (∀ x, (stream net c prompt system).2 = Some x →
     x = JSONDecodeError ∨ (∃ msg, x = RequestException msg) ∨ (∃ msg, x = HTTPError msg)).
Proof.
  unfold stream. split.
  - destruct (provider c); [done|intros _; apply openai_stream_returns..].
  - intros x. destruct (provider c).
    + unfold _ollama_stream.
      destruct (api_generate_stream _ _ _ _ _) as [r| |msg]; simpl; [|done|].
      * unfold raise_for_status. destruct (_ && _).
        -- intros [= <-]. eauto.
        -- intros [?|?]%ollama_lines_failure; eauto.
      * intros [= <-]. eauto.
    + by rewrite openai_stream_returns.
    + by rewrite openai_stream_returns.
Qed.

Lemma ollama_lines_done before token after e :
  ollama_lines (before ++ Frame token true :: after) e
  = ollama_lines (before ++ [Frame token true]) EndOfBody.
Proof.
  induction before as [|l before IH]; simpl; [done|].
  destruct l as [| |tok fin]; [done..|]. by rewrite IH.
Qed.

Lemma openai_lines_done before after e :
  openai_lines (before ++ SseDone :: after) e
  = openai_lines (before ++ [SseDone]) EndOfBody.
Proof.
  induction before as [|l before IH]; simpl; [done|].
  destruct l; by rewrite ?IH.
Qed.

(** X4. A stream stops at its end marker: for the local server the first
    frame that says [done], for a hosted provider the first [[DONE]] line.
    The lines after the marker, and the way the body ends (a lost
    connection included), change nothing of what is yielded. *)
Theorem stream_stops_at_end_marker :
  (∀ before token after e,
     ollama_lines (before ++ Frame token true :: after) e
     = ollama_lines (before ++ [Frame token true]) EndOfBody) ∧
  (∀ before after e,
     openai_lines (before ++ SseDone :: after) e
     = openai_lines (before ++ [SseDone]) EndOfBody).
Proof. split; [apply ollama_lines_done|apply openai_lines_done]. Qed.

Lemma or_default_nonempty a d : d ≠ "" → or_default a d ≠ "".
Proof.
  intros Hd. destruct a as [s|]; simpl; [|done]. by destruct (decide (s = "")).
Qed.

(** What [or] sees of an optional string: the string when it is not empty. *)
Definition truth (a : option string) : option string :=
  match a with
  | Some s => if decide (s = "") then None else Some s
  | None => None
  end.

Lemma or_default_truth a a' d : truth a = truth a' → or_default a d = or_default a' d.
Proof.
  destruct a as [s|], a' as [s'|]; simpl; repeat case_decide; naive_solver.
Qed.

Lemma or_else_truth a a' b b' :
  truth a = truth a' → truth b = truth b' → truth (or_else a b) = truth (or_else a' b').
Proof.
  destruct a as [s|], a' as [s'|]; simpl; repeat case_decide; naive_solver.
Qed.

Lemma truth_insert_empty (environ : gmap string string) key other :
  truth (<[key := ""]> environ !! other) = truth (delete key environ !! other).
Proof.
  destruct (decide (key = other)) as [->|Hne].
  - by rewrite lookup_insert_eq, lookup_delete_eq.
  - by rewrite lookup_insert_ne, lookup_delete_ne.
Qed.

Lemma default_insert_empty (environ : gmap string string) key other :
  default "" (<[key := ""]> environ !! other) = default "" (delete key environ !! other).
Proof.
  destruct (decide (key = other)) as [->|Hne].
  - by rewrite lookup_insert_eq, lookup_delete_eq.
  - by rewrite lookup_insert_ne, lookup_delete_ne.
Qed.

(** X5. The constructor accepts a provider name exactly when its lower-case
    form is [ollama], [groq] or [openai]; the client it returns has that
    provider, and any other name raises [ValueError] with the name as it
    was given. *)
Theorem init_provider environ provider model base_url api_key :
  (lower provider ∈ provider_names →
     ∃ c, __init__ environ provider model base_url api_key = Ok c ∧
          provider_name (LLMClient.provider c) = lower provider) ∧
  (lower provider ∉ provider_names →
     __init__ environ provider model base_url api_key
     = Raise (ValueError ("Unknown LLM provider: " +:+ provider))).
Proof.
  unfold __init__, provider_names. split.
  - rewrite !elem_of_cons, elem_of_nil. intros [Hp|[Hp|[Hp|[]]]]; rewrite Hp; simpl.
    all: eexists; split; [reflexivity|done].
  - rewrite !not_elem_of_cons. intros (? & ? & ? & _).
    by rewrite !decide_False.
Qed.

(** X6. A client that was constructed has an endpoint and a model name that
    are not empty: an absent or empty argument or variable gives way to the
    next source, down to the default of the provider. For the constructor,
    a variable of the environment that is set to the empty string is a
    variable that is not set. *)
Theorem init_defaults environ provider model base_url api_key :
  (∀ c, __init__ environ provider model base_url api_key = Ok c →
     LLMClient.base_url c ≠ "" ∧ LLMClient.model c ≠ "") ∧
  (∀ key,
     __init__ (<[key := ""]> environ) provider model base_url api_key
     = __init__ (delete key environ) provider model base_url api_key).
Proof.
  unfold __init__. split.
  - intros c. repeat case_decide; intros [= <-]; simpl.
    all: split; by apply or_default_nonempty.
  - intros key. repeat case_decide; try done.
    + do 2 f_equal; apply or_default_truth;
        repeat apply or_else_truth; try done; apply truth_insert_empty.
    + by rewrite default_insert_empty.
    + by rewrite default_insert_empty.
Qed.

(** X7. For the local server the environment decides before the arguments:
    a non-empty [OLLAMA_BASE_URL] is the endpoint and a non-empty
    [OLLAMA_MODEL] is the model, whatever was passed, and the client holds
    no key. *)
Theorem init_ollama_environment environ provider model base_url api_key url name :
  lower provider = "ollama" →
  environ !! "OLLAMA_BASE_URL" = Some url → url ≠ "" →
  environ !! "OLLAMA_MODEL" = Some name → name ≠ "" →
  __init__ environ provider model base_url api_key
  = Ok {| LLMClient.provider := Ollama; LLMClient.base_url := url;
          LLMClient.model := name; LLMClient.api_key := None |}.
Proof.
  intros Hp Hurl Hu Hname Hn. unfold __init__. rewrite Hp, Hurl, Hname. simpl.
  repeat (rewrite decide_False by done; simpl). done.
Qed.

(** The variable of the environment that holds the key of a hosted
    provider. *)
Definition key_variable (p : provider_id) : string :=
  match p with
  | Groq => "GROQ_API_KEY"
  | _ => "OPENAI_API_KEY"
  end.

(** X8. A hosted client is available exactly when a key was configured, by
    the argument or, if that is absent or empty, by the variable of the
    provider; the network is not asked. *)
Theorem hosted_is_available environ provider model base_url api_key reg c :
  __init__ environ provider model base_url api_key = Ok c →
  LLMClient.provider c ≠ Ollama →
  is_available reg c = true ↔
  (∃ key, api_key = Some key ∧ key ≠ "")
  ∨ (∃ key, environ !! key_variable (LLMClient.provider c) = Some key ∧ key ≠ "").
Proof.
  unfold __init__. repeat case_decide; intros [= <-]; simpl; [done|..]; intros _.
  all: unfold is_available, has_key; simpl; rewrite bool_decide_eq_true.
  all: match goal with |- context [default "" (_ !! ?k)] =>
         destruct api_key as [key|], (environ !! k) as [k'|] end; simpl;
       repeat case_decide; subst; simpl.
  all: split;
    [ intros Hne; first [ done | by left; eexists | by right; eexists ]
    | intros [(key' & Heq & Hk')|(key' & Heq & Hk')]; by simplify_eq ].
Qed.

(** X9. When the local server cannot be reached, the client is not
    available, lists no model, and cannot ensure its model, and none of the
    three calls raises. *)
Theorem unreachable_server reg c :
  provider c = Ollama →
  (∃ msg, api_tags reg (base_url c) = ConnectionFailed msg) →
  (∃ msg, api_pull reg (base_url c) (model c) = ConnectionFailed msg) →
  is_available reg c = false ∧ list_models reg c = [] ∧ ensure_model reg c = false.
Proof.
  intros Hp [m1 Htags] [m2 Hpull].
  unfold ensure_model, is_available, list_models. by rewrite Hp, Htags, Hpull.
Qed.

Lemma prefix_refl s : String.prefix s s = true.
Proof. induction s as [|c s IH]; simpl; [done|]. by destruct (Ascii.ascii_dec c c). Qed.

Lemma contains_refl s : contains s s = true.
Proof.
  destruct s as [|a s]; [done|].
  change (String.prefix (String a s) (String a s) || contains s (String a s) = true).
  by rewrite prefix_refl.
Qed.

(** X10. [ensure_model] asks for a pull only when no installed model has
    the configured name as a part of its own. If the name is installed, it
    answers true whatever the pull endpoint would do; if no installed name
    contains it, its answer is whether the pull was answered with status
    200. *)
Theorem ensure_model_pulls_when_absent reg c r names :
  provider c = Ollama →
  api_tags reg (base_url c) = Responded r →
  raise_for_status (tags_status_code r) (tags_status_text r) = Ok () →
  tags_json r = Tags (Some names) →
  (model c ∈ names → ensure_model reg c = true) ∧
  (Forall (λ m, contains m (model c) = false) names →
     ensure_model reg c
     = match api_pull reg (base_url c) (model c) with
       | Responded status => bool_decide (status = 200)
       | _ => false
       end).
Proof.
  intros Hp Htags Hstatus Hjson.
  unfold ensure_model, list_models. rewrite Hp, Htags, Hstatus, Hjson. split.
  - intros Hin.
    assert (existsb (λ m, contains m (model c)) names = true) as ->; [|done].
    apply existsb_exists. exists (model c). split; [|apply contains_refl].
    by apply list_elem_of_In.
  - intros Hnone.
    assert (existsb (λ m, contains m (model c)) names = false) as ->; [|done].
    apply not_true_is_false. intros (m & Hin & Hm)%existsb_exists.
    rewrite Forall_forall in Hnone. apply list_elem_of_In, Hnone in Hin. congruence.
Qed.

(** X11. With a hosted provider, the multi-turn [chat] on the one-message
    history that holds the prompt as the user's message sends what
    [generate] sends and returns or raises what [generate] does. *)
Theorem chat_single_message net reg c prompt system :
  provider c ≠ Ollama →
  chat net reg c [("user", prompt)] system = generate net c prompt system.
Proof.
  intros Hp. unfold chat, generate, _openai_generate, with_system, completion_messages.
  by destruct (provider c).
Qed.

End LLMClientFacts.

(** ** More of the knowledge base *)

Module KnowledgeBaseMore.
Import KnowledgeBase KnowledgeBaseFacts.
Section KnowledgeBaseMore.
Context `{Numeric}.

#[local] Existing Instance Qlt_decision.

Lemma slice_to_take {A} (l : list A) (k : Z) :
  0 ≤ k → slice_to k l = take (Z.to_nat k) l.
Proof.
  intros Hk. unfold slice_to, slice_bound.
  destruct (Z.ltb_spec k 0); [lia|].
  destruct (decide (Z.to_nat k ≤ length l)%nat).
  - f_equal. lia.
  - rewrite !take_ge by lia. done.
Qed.

Lemma collect_app kb scores idx1 idx2 :
  collect kb scores (idx1 ++ idx2)
  = (r1 ←! collect kb scores idx1; r2 ←! collect kb scores idx2; Ok (r1 ++ r2)).
Proof.
  induction idx1 as [|i idx1 IH]; simpl.
  - by destruct (collect kb scores idx2).
  - destruct (py_index scores i) as [s|]; simpl; [|done].
    destruct (Qltb floor s); [|done].
    destruct (py_index (documents kb) i) as [d|]; simpl; [|done].
    destruct (py_index (metadata kb) i) as [md|]; simpl; [|done].
    rewrite IH. destruct (collect kb scores idx1) as [r1|]; simpl; [|done].
    by destruct (collect kb scores idx2).
Qed.

(** X12. Asking for more never changes what comes first: for
    [0 <= j <= k], when [query] returns for [top_k = k] it returns for
    [top_k = j] too, and the results for [j] are the first of the results
    for [k]. *)
Theorem query_prefix kb question (j k : Z) results :
  0 ≤ j ≤ k →
  query kb question k = Ok results →
  ∃ first, query kb question j = Ok first ∧ first `prefix_of` results.
Proof.
  intros Hjk. unfold query.
  destruct (vectorizer kb) as [[|v]|], (tfidf_matrix kb) as [m|]; try done;
    try (intros [= <-]; by exists []).
  destruct (cosine_similarity v m question) as [scores|]; [|done].
  rewrite !slice_to_take by lia.
  set (l := reverse (argsort scores)).
  replace (take (Z.to_nat k) l)
    with (take (Z.to_nat j) l ++ take (Z.to_nat k - Z.to_nat j) (drop (Z.to_nat j) l)).
  2:{ rewrite take_take_drop. f_equal. lia. }
  rewrite collect_app.
  destruct (collect kb scores (take (Z.to_nat j) l)) as [r1|]; simpl; [|done].
  destruct (collect kb scores _) as [r2|]; simpl; [|done].
  intros [= <-]. exists r1. split; [done|]. by apply prefix_app_r.
Qed.

Lemma collect_add text category source kb scores idx :
  aligned kb → (length scores ≤ length (documents kb))%nat →
  Forall (λ i, (i < length scores)%nat) idx →
  collect (add text category source kb) scores idx = collect kb scores idx.
Proof.
  intros Ha Hlen. induction 1 as [|i idx Hi _ IH]; simpl; [done|].
  unfold py_index. rewrite !lookup_app_l by (unfold aligned in Ha; lia).
  by rewrite IH.
Qed.

(** X13. A document added after the index was built is not seen by
    [query] until the index is built again: on every index the class can
    hold, [query] answers the same before and after [add]. *)
Theorem add_unseen_until_rebuild kb text category source question top_k :
  reachable kb →
  query (add text category source kb) question top_k = query kb question top_k.
Proof.
  intros [Ha Hc]%reachable_consistent. unfold query. simpl.
  destruct (vectorizer kb) as [[|v]|], (tfidf_matrix kb) as [m|]; try done.
  destruct Hc as (docs & Hpre & Hfit).
  destruct (fit_transform_scores docs v m question Hfit) as (scores & -> & Hlen).
  apply collect_add; [done| |apply top_idx_in_range].
  rewrite Hlen. by apply prefix_length.
Qed.

Lemma round_half_even_above (z : Z) (x : Q) :
  (inject_Z z < x)%Q → z ≤ round_half_even x.
Proof.
  intros Hz. assert (z ≤ Qfloor x) as Hfloor.
  { rewrite <- (Qfloor_Z z). apply Qfloor_resp_le. by apply Qlt_le_weak. }
  unfold round_half_even. destruct (_ ?= _)%Q; [destruct (Z.even _)|..]; lia.
Qed.

Lemma py_round_floor (s : Q) : (floor < s)%Q → (floor <= py_round s 4)%Q.
Proof.
  intros Hs. unfold py_round.
  assert (200 ≤ round_half_even (s * inject_Z (Z.pos (Z.to_pos (10 ^ Z.of_nat 4))))).
  { apply round_half_even_above. unfold floor in Hs.
    change (inject_Z (Z.pos (Z.to_pos (10 ^ Z.of_nat 4)))) with (inject_Z 10000).
    change (inject_Z 200) with (200 # 1)%Q. change (inject_Z 10000) with (10000 # 1)%Q.
    lra. }
  unfold floor, Qle. cbn [Qnum Qden].
  change (Z.pos (Z.to_pos (10 ^ Z.of_nat 4))) with 10000 in *. lia.
Qed.

Lemma collect_scores kb scores idx results :
  collect kb scores idx = Ok results →
  Forall (λ h, (floor <= score h)%Q ∧ Qden (score h) = 10000%positive) results.
Proof.
  revert results. induction idx as [|i idx IH]; intros results; simpl.
  - intros [= <-]. constructor.
  - destruct (py_index scores i) as [s|]; simpl; [|done].
    destruct (Qltb floor s) eqn:Hs; [|by apply IH].
    destruct (py_index (documents kb) i) as [d|]; simpl; [|done].
    destruct (py_index (metadata kb) i) as [md|]; simpl; [|done].
    destruct (collect kb scores idx) as [rest|]; simpl; [|done].
    intros [= <-]. constructor; [|by apply IH]. simpl. split; [|done].
    by apply py_round_floor, Qltb_lt.
Qed.

(** X14. The score [query] reports is the similarity rounded to four
    decimals, and it is never below the floor: a similarity must exceed
    0.02 to be returned, and its rounded value is then at least 0.02. *)
Theorem reported_scores kb question top_k results :
  query kb question top_k = Ok results →
  Forall (λ h, (floor <= score h)%Q ∧ Qden (score h) = 10000%positive) results.
Proof.
  unfold query.
  destruct (vectorizer kb) as [[|v]|], (tfidf_matrix kb) as [m|];
    try done; try (intros [= <-]; constructor).
  destruct (cosine_similarity v m question) as [scores|]; [|done].
  apply collect_scores.
Qed.

(** X15. Directories do not interfere: saving under one path changes
    nothing of what loads from another path, and saving twice under a path
    leaves the index saved last. *)
Theorem save_elsewhere path other kb kb' fs :
  (path ≠ other → load other (save path kb fs) = load other fs) ∧
  load path (save path kb' (save path kb fs)) = Ok kb'.
Proof.
  split; [|apply load_save].
  intros Hne. unfold load, load_vectorizer, load_matrix, load_documents, save.
  rewrite !lookup_insert_ne by congruence. done.
Qed.

Lemma reachable_add_all entries kb : reachable kb → reachable (add_all entries kb).
Proof.
  revert kb. induction entries as [|e entries IH]; intros kb Hr; [done|].
  simpl. apply IH. by constructor.
Qed.

Lemma filter_all {A} (P : A → Prop) `{!∀ x, Decision (P x)} (l : list A) :
  Forall P l → filter P l = l.
Proof.
  induction 1 as [|x l Hx _ IH]; [done|]. rewrite filter_cons_True by done.
  by rewrite IH.
Qed.

Lemma filter_none {A} (P : A → Prop) `{!∀ x, Decision (P x)} (l : list A) :
  Forall (λ x, ¬ P x) l → filter P l = [].
Proof.
  induction 1 as [|x l Hx _ IH]; [done|]. by rewrite filter_cons_False.
Qed.

(** In a list sorted by non-increasing score, the indices that clear the
    floor come first. *)
Lemma sorted_clear_first scores l :
  StronglySorted (λ i j, (nth j scores 0 <= nth i scores 0)%Q) l →
  ∃ c, (c ≤ length l)%nat ∧
       Forall (λ i, (floor < nth i scores 0)%Q) (take c l) ∧
       Forall (λ i, ¬ (floor < nth i scores 0)%Q) (drop c l).
Proof.
  induction 1 as [|x l Hl (c & Hc & Hyes & Hno) Hx].
  - exists 0%nat. by repeat split.
  - destruct (decide (floor < nth x scores 0)%Q) as [Hclear|Hlow].
    + exists (S c). simpl. split; [lia|]. split; [by constructor|done].
    + exists 0%nat. simpl. split; [lia|]. split; [constructor|].
      constructor; [done|]. eapply Forall_impl; [apply Hx|]. simpl.
      intros y Hy Hclear. apply Hlow. by eapply Qlt_le_trans.
Qed.

Lemma clear_first_count {A} (P : A → Prop) `{!∀ x, Decision (P x)} (l : list A) c n :
  (c ≤ length l)%nat → Forall P (take c l) → Forall (λ x, ¬ P x) (drop c l) →
  length (filter P (take n l)) = Nat.min n c.
Proof.
  intros Hc Hyes Hno. rewrite <- (take_drop c l) at 1.
  assert (length (take c l) = c) as Hlen by (rewrite length_take; lia).
  destruct (decide (n ≤ c)%nat).
  - rewrite take_app_le by lia. rewrite filter_all by by apply Forall_take.
    rewrite length_take. lia.
  - rewrite take_app_ge by lia. rewrite filter_app, (filter_all P (take c l)) by done.
    rewrite filter_none by by apply Forall_take. rewrite app_nil_r. lia.
Qed.

Lemma returned_count scores :
  ∃ c, ∀ top_k, 0 ≤ top_k →
    length (returned scores top_k) = Nat.min (Z.to_nat top_k) c.
Proof.
  destruct (sorted_clear_first scores (reverse (argsort scores)))
    as (c & Hc & Hyes & Hno).
  { apply (StronglySorted_reverse _ _ (argsort_ascending scores)). }
  exists c. intros top_k Hk. unfold returned. rewrite slice_to_take by done.
  by apply clear_first_count.
Qed.

Lemma query_lengths kb question (j k : Z) first results :
  reachable kb → 0 ≤ j ≤ k →
  query kb question j = Ok first →
  query kb question k = Ok results →
  length first = Nat.min (Z.to_nat j) (length results).
Proof.
  intros Hr Hjk Hj Hk.
  destruct (vectorizer kb) as [[|v]|] eqn:Hv, (tfidf_matrix kb) as [m|] eqn:Hm.
  3:{ destruct (query_returned kb v m question j Hr Hv Hm)
        as (scores & rj & Hs & Hqj & HFj).
      destruct (query_returned kb v m question k Hr Hv Hm)
        as (scores' & rk & Hs' & Hqk & HFk).
      rewrite Hqj in Hj. rewrite Hqk in Hk. injection Hj as <-. injection Hk as <-.
      assert (scores' = scores) as -> by congruence.
      destruct (returned_count scores) as [c Hc].
      apply Forall2_length in HFj, HFk. rewrite <- HFj, <- HFk, !Hc by lia. lia. }
  all: unfold query in Hj, Hk; rewrite Hv, ?Hm in Hj, Hk; simplify_eq; simpl; lia.
Qed.

(** X16. How many documents [query] returns: on every index the class can
    hold, for [0 <= j <= k], the number returned for [top_k = j] is the
    smaller of [j] and the number returned for [top_k = k], which is at
    most [k]. So the two queries return as many documents exactly when the
    larger one returns at most [j]. *)
Theorem query_count kb question (j k : Z) first results :
  reachable kb → 0 ≤ j ≤ k →
  query kb question j = Ok first →
  query kb question k = Ok results →
  length first = Nat.min (Z.to_nat j) (length results) ∧
  (length results ≤ Z.to_nat k)%nat ∧
  (length first = length results ↔ (length results ≤ Z.to_nat j)%nat).
Proof.
  intros Hr Hjk Hj Hk.
  pose proof (query_lengths kb question j k first results Hr Hjk Hj Hk) as Hmin.
  pose proof (query_lengths kb question k k results results Hr ltac:(lia) Hk Hk) as Hself.
  split; [done|]. split; lia.
Qed.

End KnowledgeBaseMore.
End KnowledgeBaseMore.

(** ** Column lookup of the chunk generators *)

Module Chunks.

(** [re.sub(r"[^a-z0-9]", "", s.lower())] on ASCII names: the letters and
    digits of the name, lower-cased. *)
Definition keeps (c : Ascii.ascii) : bool :=
  let n := Ascii.nat_of_ascii c in
  ((97 <=? n) && (n <=? 122) || (48 <=? n) && (n <=? 57))%nat.

Fixpoint keep_alnum (s : string) : string :=
  match s with
  | String c r => if keeps c then String c (keep_alnum r) else keep_alnum r
  | EmptyString => EmptyString
  end.

Definition clean_ascii (s : string) : string := keep_alnum (lower s).

Section Col.
(** The normal form [_col] compares names by; the facts below hold for any. *)
Variable clean : string → string.

(** [_col(df, *candidates)], with [df.columns] as [columns]. *)
Fixpoint _col (columns candidates : list string) : option string :=
  match candidates with
  | [] => None
  | c :: rest =>
      if decide (c ∈ columns) then Some c
      else
        match list_find (λ col, clean col = clean c) columns with
        | Some (_, col) => Some col
        | None => _col columns rest
        end
  end.

Lemma col_Some columns candidates col :
  _col columns candidates = Some col →
  col ∈ columns ∧ ∃ c, c ∈ candidates ∧ clean col = clean c.
Proof.
  induction candidates as [|c rest IH]; simpl; [done|].
  destruct (decide (c ∈ columns)) as [Hin|Hout].
  - intros [= <-]. split; [done|]. exists c. split; [left|done].
  - destruct (list_find _ columns) as [[i col']|] eqn:Hfind.
    + intros [= <-]. apply list_find_Some in Hfind as (Hi & Hclean & _).
      split; [by eapply list_elem_of_lookup_2|]. exists c. split; [left|done].
    + intros (Hcol & c' & Hc' & Hclean)%IH. split; [done|].
      exists c'. split; [by right|done].
Qed.

Lemma col_None columns candidates :
  _col columns candidates = None ↔
  ∀ c col, c ∈ candidates → col ∈ columns → clean col ≠ clean c.
Proof.
  induction candidates as [|c rest IH]; simpl.
  - split; [|done]. intros _ c col Hc. by apply elem_of_nil in Hc.
  - destruct (decide (c ∈ columns)) as [Hin|Hout].
    + split; [done|]. intros Hnone. by destruct (Hnone c c); [left| |].
    + destruct (list_find _ columns) as [[i col']|] eqn:Hfind.
      * split; [done|]. intros Hnone.
        apply list_find_Some in Hfind as (Hi & Hclean & _).
        destruct (Hnone c col'); [left|by eapply list_elem_of_lookup_2|done].
      * rewrite IH. apply list_find_None in Hfind. rewrite Forall_forall in Hfind.
        split.
        -- intros Hrest c' col [->|Hc']%elem_of_cons Hcol; [by apply Hfind|].
           by apply Hrest.
        -- intros Hall c' col Hc' Hcol. apply Hall; [by right|done].
Qed.

(** X17. The column [_col] finds. It returns no column exactly when no
    column has the normal form of a candidate; a column it returns is one
    of the frame, with the normal form of a candidate; and the first
    candidate decides whenever it matches at all: it is returned itself if
    it is a column, and otherwise a column with its normal form is, even
    if a later candidate is a column. *)
Theorem col_finds columns candidates :
  (_col columns candidates = None ↔
     ∀ c col, c ∈ candidates → col ∈ columns → clean col ≠ clean c) ∧
  (∀ col, _col columns candidates = Some col →
     col ∈ columns ∧ ∃ c, c ∈ candidates ∧ clean col = clean c) ∧
  (∀ c rest, candidates = c :: rest →
     (c ∈ columns → _col columns candidates = Some c) ∧
     (∀ col, c ∉ columns → col ∈ columns → clean col = clean c →
        ∃ col', _col columns candidates = Some col' ∧ clean col' = clean c)).
Proof.
  split; [apply col_None|]. split; [intros col; apply col_Some|].
  intros c rest ->. simpl. split.
  - intros Hin. by rewrite decide_True.
  - intros col Hout Hcol Hclean. rewrite decide_False by done.
    destruct (list_find _ columns) as [[i col']|] eqn:Hfind.
    + apply list_find_Some in Hfind as (_ & Hclean' & _). by exists col'.
    + apply list_find_None in Hfind. rewrite Forall_forall in Hfind.
      by destruct (Hfind col).
Qed.

End Col.
End Chunks.

(** ** The engine factory and the chat endpoints of the API *)

Module Serving.

(** What a handler gives the framework: a value to send, an
    [HTTPException], or an exception it did not handle. *)
Inductive http (A : Type) :=
| Answer (a : A)
| HTTPException (status : Z) (detail : string)
| Unhandled (x : exn).
Arguments Answer {A} a.
Arguments HTTPException {A} status detail.
Arguments Unhandled {A} x.

Section Serving.
Context `{Numeric}.

(** [ROOT / "models" / "artifacts" / "knowledge_base"], relative to [ROOT]. *)
Definition kb_path : string := "models/artifacts/knowledge_base".

(** [create_chat_engine(config)]: the client of the configuration, and the
    knowledge base when its documents file is there and it loads. *)
Definition create_chat_engine (environ : gmap string string)
    (config : gmap string (gmap string string))
    (fs : gmap (string * string) KnowledgeBase.file) : result ChatEngine.t :=
  llm ←! LLMClientSetup.create_client_from_config environ config;
  let kb :=
    match fs !! (kb_path, KnowledgeBase.documents_file) with
    | Some _ =>
        match KnowledgeBase.load kb_path fs with
        | Ok kb => Some kb
        | Raise _ => None
        end
    | None => None
    end in
  Ok (ChatEngine.init llm kb).

(** What the setup block of [lifespan] prints when nothing raises: whether
    the client is available, its provider and its model, and the number of
    chunks of the knowledge base when the engine has one. *)
Record report := {
  llm_ok : bool;
  llm_provider : string;
  llm_model : string;
  kb_chunks : option nat;
}.

(** The [try] block of [lifespan] that sets the two globals [_llm_client]
    and [_chat_engine], with what it prints: the client, the engine, the
    probe of the client and the two lines of the report; any exception
    leaves both globals [None]. The probe catches its own exceptions,
    printing is taken to succeed, and the documents of a knowledge base are
    a list here, as [save] writes them, so that [len] of them is defined:
    the lines after the engine is built do not raise. *)
Definition startup (environ : gmap string string)
    (config : gmap string (gmap string string))
    (fs : gmap (string * string) KnowledgeBase.file)
    (reg : LLMClientSetup.registry)
    : option LLMClient.t * option ChatEngine.t * option report :=
  match LLMClientSetup.create_client_from_config environ config with
  | Raise _ => (None, None, None)
  | Ok client =>
      match create_chat_engine environ config fs with
      | Raise _ => (None, None, None)
      | Ok engine =>
          let llm_ok := LLMClientSetup.is_available reg client in
          let chunks :=
            (λ kb, length (KnowledgeBase.documents kb)) <$> ChatEngine.kb engine in
          (Some client, Some engine,
           Some {| llm_ok := llm_ok;
                   llm_provider := LLMClient.provider_name (LLMClient.provider client);
                   llm_model := LLMClient.model client;
                   kb_chunks := chunks |})
      end
  end.

(** The body of an answer of [POST /chat]: the reply as JSON, or the events
    of the stream and the exception that cut it, if one did. *)
Inductive chat_answer :=
| JsonReply (r : ChatEngine.reply)
| EventStream (events : list ChatEngine.event) (failure : option exn).

Definition not_initialized : string :=
  "Chat engine not initialized. Ensure Ollama is running and knowledge base is built.".

(** [chat(req)] of the API, on the global [_chat_engine]. *)
Definition chat (engine : option ChatEngine.t) (w : ChatEngine.world)
    (message session_id : string) (stream : bool)
    : http chat_answer * option ChatEngine.t :=
  match engine with
  | None => (HTTPException 503 not_initialized, None)
  | Some e =>
      if stream then
        let '(events, failure, e') := ChatEngine.stream_chat w message session_id e in
        (Answer (EventStream events failure), Some e')
      else
        match ChatEngine.chat w message session_id e with
        | (Ok r, e') => (Answer (JsonReply r), Some e')
        | (Raise x, e') => (Unhandled x, Some e')
        end
  end.

(** [clear_chat(session_id)] of the API: it answers [{"ok": True}]. *)
Definition clear_chat (engine : option ChatEngine.t) (session_id : string)
    : http bool * option ChatEngine.t :=
  (Answer true, ChatEngine.clear_history session_id <$> engine).

End Serving.
End Serving.

(** ** More of the chat engine *)

Module ChatEngineMore.
Import ChatEngine ChatEngineFacts.
Section ChatEngineMore.
Context `{Numeric}.

(** X18. [clear_history] forgets one session and nothing else: the
    session is empty afterwards and the others are as they were; on a
    session the engine does not know it changes nothing; doing it twice is
    doing it once; and the next prompt of the session has no history. *)
Theorem clear_history_forgets session_id e :
  session (clear_history session_id e) session_id = [] ∧
  (∀ other, other ≠ session_id →
     session (clear_history session_id e) other = session e other) ∧
  (conversations e !! session_id = None → clear_history session_id e = e) ∧
  clear_history session_id (clear_history session_id e) = clear_history session_id e ∧
  (∀ message context,
     prompt_for (clear_history session_id e) message session_id context
     = _build_prompt e message context []).
Proof.
  split_and!.
  - unfold session. simpl. by rewrite lookup_delete_eq.
  - intros other Hne. unfold session. simpl. by rewrite lookup_delete_ne.
  - intros Hnone. unfold clear_history. rewrite delete_id by done. by destruct e.
  - unfold clear_history. simpl. by rewrite delete_delete_eq.
  - intros message context. unfold prompt_for. simpl. by rewrite lookup_delete_eq.
Qed.

(** X19. Sessions do not touch each other: a turn on one session, blocking
    or streamed, returned or raised, leaves every other session as it
    was. *)
Theorem sessions_independent w message session_id other e :
  other ≠ session_id →
  session (chat w message session_id e).2 other = session e other ∧
  session (stream_chat w message session_id e).2 other = session e other.
Proof.
  intros Hne. split.
  - destruct (chat_state w message session_id e) as [->|[response ->]]; [done|].
    by apply session_remember_ne.
  - destruct (stream_chat_state w message session_id e) as [->|[response ->]]; [done|].
    by apply session_remember_ne.
Qed.

(** X20. Only the last [max_history] entries of a history reach the prompt
    (ten entries, five exchanges, on an engine as constructed), although a
    session stores twice as many: entries before them change nothing of
    the prompt. *)
Theorem prompt_window e message context older recent :
  0 < max_history e →
  Z.of_nat (length recent) = max_history e →
  _build_prompt e message context (older ++ recent)
  = _build_prompt e message context recent.
Proof.
  intros Hmax Hlen. unfold _build_prompt.
  assert (slice_from (- max_history e) (older ++ recent) = recent) as Hold.
  { unfold slice_from, slice_bound. rewrite length_app.
    destruct (Z.ltb_spec (- max_history e) 0); [|lia].
    replace (Z.to_nat _) with (length older) by lia. apply drop_app_length. }
  assert (slice_from (- max_history e) recent = recent) as Hnew.
  { unfold slice_from, slice_bound.
    destruct (Z.ltb_spec (- max_history e) 0); [|lia].
    replace (Z.to_nat _) with 0%nat by lia. done. }
  destruct recent as [|r recent]; [simpl in Hlen; lia|].
  destruct (older ++ r :: recent) as [|o rest] eqn:Happ.
  { by destruct older. }
  by rewrite Hold, Hnew.
Qed.

Lemma join_chunks_nonempty sep (results : list KnowledgeBase.hit) :
  results ≠ [] → join sep (chunk <$> results) ≠ "".
Proof.
  destruct results as [|first rest]; [done|]. intros _.
  unfold join. destruct rest as [|second rest]; simpl; unfold chunk; simpl; done.
Qed.

Lemma retrieve_context_found e query top_k context :
  _retrieve_context e query top_k = Ok context →
  context ≠ "" ↔
  ∃ base first rest,
    kb e = Some base ∧ KnowledgeBase.query base query top_k = Ok (first :: rest).
Proof.
  unfold _retrieve_context. destruct (kb e) as [base|].
  - destruct (KnowledgeBase.query base query top_k) as [[|first rest]|] eqn:Hq;
      simpl; [| |done].
    + intros [= <-]. split; [done|].
      intros (b & f & r & Hb & Hq'). injection Hb as <-. congruence.
    + intros [= <-].
      split; [|intros _; exact (join_chunks_nonempty (nl +:+ nl) (first :: rest) ltac:(done))].
      intros _. by exists base, first, rest.
  - intros [= <-]. split; [done|]. by intros (? & ? & ? & [=] & _).
Qed.

(** X21. [context_used] tells whether retrieval found anything: in a reply
    of [chat] it is true exactly when the engine has a knowledge base and
    the retrieval query returned at least one document. *)
Theorem context_used_iff w message session_id e r :
  (chat w message session_id e).1 = Ok r →
  context_used r = true ↔
  ∃ base first rest,
    kb e = Some base ∧
    KnowledgeBase.query base message retrieve_top_k = Ok (first :: rest).
Proof.
  unfold chat. destruct (_retrieve_context _ _ _) as [context|] eqn:Hc; [|done].
  destruct (generate_or_message _ _ _) as [text|]; [|done]. simpl.
  destruct (count_chunks _ _) as [chunks|]; [|done]. simpl. intros [= <-]. simpl.
  rewrite bool_decide_eq_true. by apply retrieve_context_found.
Qed.

(** X22. With a hosted provider that cannot be reached, [chat] is not
    degraded as with the local server: [requests.ConnectionError] is not
    the builtin [ConnectionError], nothing catches it, [chat] raises it and
    stores nothing. *)
Theorem chat_hosted_unreachable w message session_id e context msg :
  LLMClient.provider (llm e) ≠ LLMClient.Ollama →
  _retrieve_context e message retrieve_top_k = Ok context →
  (∀ url key name messages,
     LLMClient.chat_completions (net w) url key name messages
     = LLMClient.ConnectionFailed msg) →
  chat w message session_id e = (Raise (RequestsConnectionError msg), e).
Proof.
  intros Hp Hc Hnet. unfold chat, generate_or_message. rewrite Hc.
  unfold LLMClient.generate, LLMClient._openai_generate. rewrite Hnet.
  by destruct (LLMClient.provider (llm e)).
Qed.

(** X23. With a hosted provider, a streaming request that fails does not
    make [stream_chat] raise: when the request cannot be sent (no connection, a timeout, any other
    requests failure) or is answered with an error status, [stream_chat]
    yields one token event that holds [[Error]] and the message of the
    failure, then its completion event, and stores the exchange with that
    text as the assistant's. *)
Theorem stream_chat_hosted_reports_failure w message session_id e context msg :
  LLMClient.provider (llm e) ≠ LLMClient.Ollama →
  _retrieve_context e message retrieve_top_k = Ok context →
  (let sent :=
     LLMClient.chat_completions_stream (net w) (LLMClient.base_url (llm e))
       (LLMClient.api_key (llm e)) (LLMClient.model (llm e))
       (LLMClient.completion_messages
          (prompt_for e message session_id context) SYSTEM_PROMPT) in
   sent = LLMClient.ConnectionFailed msg
   ∨ sent = LLMClient.RequestFailed msg
   ∨ ∃ r, sent = LLMClient.Responded r ∧
          LLMClient.raise_for_status (LLMClient.stream_status_code r)
            (LLMClient.stream_status_text r) = Raise (HTTPError msg)) →
  stream_chat w message session_id e
  = ([Token ("[Error] " +:+ msg);
      Done (py_round (elapsed_ms w) 1) (LLMClient.model (llm e))], None,
     remember e session_id message ("[Error] " +:+ msg)).
Proof.
  intros Hp Hc Hsent. unfold stream_chat. rewrite Hc.
  assert (LLMClient.stream (net w) (llm e)
            (prompt_for e message session_id context) SYSTEM_PROMPT
          = (["[Error] " +:+ msg], None)) as ->.
  { unfold LLMClient.stream, LLMClient._openai_stream.
    destruct (LLMClient.provider (llm e)); [done|..];
      destruct Hsent as [->|[->|(r & -> & ->)]]; done. }
  done.
Qed.

(** X24. What [chunks_retrieved] counts. When retrieval is ready and [chat]
    returns, the field is 0 without a knowledge base; with one, it is at
    most 8, and the number of documents the retrieval step found is the
    smaller of 6 and the field: the field is the number of retrieved
    documents exactly when it is at most 6. *)
Theorem chunks_retrieved_counts w message session_id e r :
  retrieval_ready e →
  (chat w message session_id e).1 = Ok r →
  match kb e with
  | None => chunks_retrieved r = 0%nat
  | Some base =>
      ∃ retrieved,
        KnowledgeBase.query base message retrieve_top_k = Ok retrieved ∧
        length retrieved = Nat.min 6 (chunks_retrieved r) ∧
        (chunks_retrieved r ≤ 8)%nat
  end.
Proof.
  intros Hready. unfold chat.
  destruct (_retrieve_context _ _ _) as [context|]; [|done].
  destruct (generate_or_message _ _ _) as [text|]; [|done]. simpl.
  destruct (count_chunks e message) as [chunks|] eqn:Hcount; [|done]. simpl.
  intros [= <-]. simpl. unfold count_chunks in Hcount.
  destruct (kb e) as [base|] eqn:Hkb; [|by simplify_eq].
  destruct (Hready base Hkb) as [Hr Hhalf].
  destruct (KnowledgeBase.query base message KnowledgeBase.default_top_k)
    as [results|] eqn:Hq8; [|done]. simpl in Hcount. injection Hcount as <-.
  destruct (query_total base message retrieve_top_k Hr Hhalf) as [retrieved Hq6].
  exists retrieved. split; [done|].
  pose proof (KnowledgeBaseMore.query_lengths base message 6 8 retrieved results
                Hr ltac:(lia) Hq6 Hq8) as H6.
  pose proof (KnowledgeBaseMore.query_lengths base message 8 8 results results
                Hr ltac:(lia) Hq8 Hq8) as H8.
  split; [exact H6|]. change (Z.to_nat 8) with 8%nat in H8. lia.
Qed.

End ChatEngineMore.
End ChatEngineMore.

Module ServingFacts.
Import Serving.
Section ServingFacts.
Context `{Numeric}.

Lemma init_returns environ provider model base_url api_key :
  (∃ c, LLMClientSetup.__init__ environ provider model base_url api_key = Ok c)
  ↔ lower provider ∈ LLMClientFacts.provider_names.
Proof.
  unfold LLMClientSetup.__init__, LLMClientFacts.provider_names.
  rewrite !elem_of_cons, elem_of_nil.
  repeat case_decide; split; eauto; try by intros [c [=]].
  intros [?|[?|[?|[]]]]; done.
Qed.

(** X25. [create_chat_engine] fails only if the client cannot be
    constructed. The engine it returns is new (no session, [max_history]
    10), and it holds a knowledge base exactly when the documents file is
    there and the whole directory loads: with any of the three files
    missing the engine has no knowledge base, and no error is raised; from
    where an index was saved the engine holds that index. *)
Theorem create_chat_engine_kb environ config fs :
  (∀ x, create_chat_engine environ config fs = Raise x ↔
        LLMClientSetup.create_client_from_config environ config = Raise x) ∧
  (∀ engine, create_chat_engine environ config fs = Ok engine →
     ChatEngine.conversations engine = ∅ ∧
     ChatEngine.max_history engine = 10 ∧
     LLMClientSetup.create_client_from_config environ config
     = Ok (ChatEngine.llm engine) ∧
     (∀ base, ChatEngine.kb engine = Some base ↔
        is_Some (fs !! (kb_path, KnowledgeBase.documents_file)) ∧
        KnowledgeBase.load kb_path fs = Ok base) ∧
     (fs !! (kb_path, KnowledgeBase.vectorizer_file) = None
      ∨ fs !! (kb_path, KnowledgeBase.matrix_file) = None
      ∨ fs !! (kb_path, KnowledgeBase.documents_file) = None →
      ChatEngine.kb engine = None)) ∧
  (∀ base engine,
     create_chat_engine environ config (KnowledgeBase.save kb_path base fs) = Ok engine →
     ChatEngine.kb engine = Some base).
Proof.
  unfold create_chat_engine. split_and!.
  - intros x. destruct (LLMClientSetup.create_client_from_config _ _) as [llm|x'];
      unfold bind; split; intros [=]; by subst.
  - intros engine.
    destruct (LLMClientSetup.create_client_from_config _ _) as [llm|]; simpl; [|done].
    intros [= <-]. simpl. split_and!; try done.
    + intros base.
      destruct (fs !! (kb_path, KnowledgeBase.documents_file)) as [f|] eqn:Hf.
      * destruct (KnowledgeBase.load kb_path fs) as [kb|]; split.
        -- intros [= <-]. by split; [eexists|].
        -- by intros [_ [= <-]].
        -- done.
        -- by intros [_ [=]].
      * split; [done|]. by intros [[? [=]] _].
    + intros Hmissing.
      destruct (fs !! (kb_path, KnowledgeBase.documents_file)) as [f|] eqn:Hf; [|done].
      destruct (KnowledgeBase.load kb_path fs) as [kb|] eqn:Hload; [|done].
      apply KnowledgeBaseFacts.load_inv in Hload as (Hv & Hm & Hd).
      destruct Hmissing as [?|[?|?]]; congruence.
  - intros base engine.
    destruct (LLMClientSetup.create_client_from_config _ _) as [llm|]; simpl; [|done].
    intros [= <-]. simpl. unfold KnowledgeBase.save at 1. rewrite lookup_insert_eq.
    by rewrite KnowledgeBaseFacts.load_save.
Qed.

(** X26. After the setup block of [lifespan] the client and the engine are
    both there or both absent. They are absent when the provider of the
    configuration ([ollama] when it names none) is not one of the three
    known names, whatever is on disk and whatever the server answers; with
    a known provider and no documents file they are there, the engine
    without a knowledge base. Without an engine the handler of
    [POST /chat], streamed or not, raises [HTTPException] with status 503
    and leaves the engine absent, while the handler that clears a session
    still answers that it is done. *)
Theorem startup_without_engine environ config fs reg :
  let provider := default "ollama" (default ∅ (config !! "llm") !! "provider") in
  let started := startup environ config fs reg in
  (started.1.1 = None ↔ started.1.2 = None) ∧
  (lower provider ∉ LLMClientFacts.provider_names → started = (None, None, None)) ∧
  (lower provider ∈ LLMClientFacts.provider_names →
   fs !! (kb_path, KnowledgeBase.documents_file) = None →
   ∃ client,
     LLMClientSetup.create_client_from_config environ config = Ok client ∧
     started
     = (Some client, Some (ChatEngine.init client None),
        Some {| llm_ok := LLMClientSetup.is_available reg client;
                llm_provider := lower provider;
                llm_model := LLMClient.model client;
                kb_chunks := None |})) ∧
  (∀ w message session_id stream,
     chat None w message session_id stream = (HTTPException 503 not_initialized, None)) ∧
  (∀ session_id, clear_chat None session_id = (Answer true, None)).
Proof.
  intros provider started. subst started.
  assert ((∃ c, LLMClientSetup.create_client_from_config environ config = Ok c)
          ↔ lower provider ∈ LLMClientFacts.provider_names) as Hinit
    by apply init_returns.
  pose proof (LLMClientFacts.init_provider environ provider
                (default ∅ (config !! "llm") !! "model")
                (default ∅ (config !! "llm") !! "base_url")
                (default ∅ (config !! "llm") !! "api_key")) as [Hname _].
  unfold startup, create_chat_engine.
  destruct (LLMClientSetup.create_client_from_config environ config)
    as [c|x] eqn:Hcreate; simpl.
  - split_and!; try done.
    + intros Hout. destruct Hout. apply Hinit. by exists c.
    + intros Hin Hdocs. rewrite Hdocs. exists c. split; [done|].
      destruct (Hname Hin) as (c' & Hc' & Hlower).
      unfold LLMClientSetup.create_client_from_config in Hcreate.
      fold provider in Hcreate. rewrite Hcreate in Hc'. injection Hc' as <-.
      by rewrite Hlower.
  - split_and!; try done.
    intros Hin. apply Hinit in Hin as [c [=]].
Qed.

End ServingFacts.
End ServingFacts.

(** ** Concrete clients, registries and runs for the facts above *)

Module MoreExamples.
Import KnowledgeBase KnowledgeBaseFacts KnowledgeBaseMore ChatEngineFacts ChatEngineMore.
Import LLMClientSetup LLMClientFacts Serving ServingFacts Examples.
#[local] Existing Instance one_hot.

(** Settles a closed decidable proposition by evaluating its decision. *)
Ltac decide_by_compute :=
  match goal with |- ?P => apply (bool_decide_unpack P); vm_compute; exact I end.

(** The local server is down. *)
Definition offline : registry :=
  {| api_tags := λ _, LLMClient.ConnectionFailed "Connection refused";
     api_pull := λ _ _, LLMClient.ConnectionFailed "Connection refused";
     api_chat := λ _ _ _, LLMClient.ConnectionFailed "Connection refused" |}.

(** The local server has the given models and refuses every pull. *)
Definition installed (names : list string) : registry :=
  {| api_tags := λ _,
       LLMClient.Responded
         {| tags_status_code := 200; tags_status_text := "OK";
            tags_json := Tags (Some names) |};
     api_pull := λ _ _, LLMClient.Responded 500;
     api_chat := λ _ _ _, LLMClient.ConnectionFailed "Connection refused" |}.

Lemma reachable_kb7 : reachable kb7.
Proof. unfold kb7. apply reachable_build_index, reachable_add_all. constructor. Qed.

Lemma retrieval_ready_engine7 : retrieval_ready engine7.
Proof.
  intros base [= <-]. split; [apply reachable_kb7|]. by intros [[=] _].
Qed.

(** X1, witness. *)
Lemma generate_trimmed_witness : strip "Great workout!" = "Great workout!".
Proof. apply (generate_trimmed great_workout local_llm "hello" ""). reflexivity. Defined.

(** X3, witness. *)
Lemma stream_failures_witness :
  (LLMClient.stream unreachable groq_llm "hello" "").2 = None.
Proof.
  destruct (stream_failures unreachable groq_llm "hello" "") as [Hhosted _].
  apply Hhosted. discriminate.
Defined.

(** X5, witness. *)
Lemma init_provider_witness :
  (∃ c, __init__ ∅ "Ollama" None None None = Ok c ∧
        LLMClient.provider_name (LLMClient.provider c) = lower "Ollama") ∧
  __init__ ∅ "anthropic" None None None
  = Raise (ValueError ("Unknown LLM provider: " +:+ "anthropic")).
Proof.
  split.
  - apply (init_provider ∅ "Ollama" None None None).
    decide_by_compute.
  - apply (init_provider ∅ "anthropic" None None None).
    decide_by_compute.
Defined.

(** X6, witness. *)
Lemma init_defaults_witness :
  (∀ c, __init__ ∅ "groq" (Some "") None None = Ok c →
        LLMClient.base_url c ≠ "" ∧ LLMClient.model c ≠ "") ∧
  (∀ key,
     __init__ (<[key := ""]> ∅) "groq" (Some "") None None
     = __init__ (delete key ∅) "groq" (Some "") None None).
Proof. exact (init_defaults ∅ "groq" (Some "") None None). Defined.

(** X7, witness. *)
Lemma init_ollama_environment_witness :
  __init__ {[ "OLLAMA_BASE_URL" := "http://gpu:11434"; "OLLAMA_MODEL" := "mistral" ]}
    "OLLAMA" (Some "llama3.2:3b") (Some "http://localhost:11434") None
  = Ok {| LLMClient.provider := LLMClient.Ollama;
          LLMClient.base_url := "http://gpu:11434";
          LLMClient.model := "mistral"; LLMClient.api_key := None |}.
Proof.
  apply init_ollama_environment; try reflexivity; discriminate.
Defined.

(** X8, witness. *)
Lemma hosted_is_available_witness :
  is_available offline groq_llm = true ↔
  (∃ key, (None : option string) = Some key ∧ key ≠ "")
  ∨ (∃ key, ({[ "GROQ_API_KEY" := "secret" ]} : gmap string string)
              !! key_variable (LLMClient.provider groq_llm) = Some key ∧ key ≠ "").
Proof.
  apply (hosted_is_available {[ "GROQ_API_KEY" := "secret" ]} "groq" None None None).
  - reflexivity.
  - discriminate.
Defined.

(** X9, witness. *)
Lemma unreachable_server_witness :
  is_available offline local_llm = false ∧
  list_models offline local_llm = [] ∧
  ensure_model offline local_llm = false.
Proof.
  apply unreachable_server; [reflexivity|eexists; reflexivity..].
Defined.

(** X10, witness. *)
Lemma ensure_model_witness :
  (LLMClient.model local_llm ∈ ["mistral:latest"; "llama3.2:3b"] →
     ensure_model (installed ["mistral:latest"; "llama3.2:3b"]) local_llm = true) ∧
  (Forall (λ m, contains m (LLMClient.model local_llm) = false)
     ["mistral:latest"; "llama3.2:3b"] →
     ensure_model (installed ["mistral:latest"; "llama3.2:3b"]) local_llm
     = match api_pull (installed ["mistral:latest"; "llama3.2:3b"])
               (LLMClient.base_url local_llm) (LLMClient.model local_llm) with
       | LLMClient.Responded status => bool_decide (status = 200)
       | _ => false
       end).
Proof.
  apply (ensure_model_pulls_when_absent (installed ["mistral:latest"; "llama3.2:3b"])
           local_llm
           {| tags_status_code := 200; tags_status_text := "OK";
              tags_json := Tags (Some ["mistral:latest"; "llama3.2:3b"]) |});
    reflexivity.
Defined.

(** X11, witness. *)
Lemma chat_single_message_witness :
  LLMClientSetup.chat great_workout offline groq_llm [("user", "hello")] "Be brief."
  = LLMClient.generate great_workout groq_llm "hello" "Be brief.".
Proof. apply chat_single_message. discriminate. Defined.

(** X12, witness. *)
Lemma query_prefix_witness :
  ∃ results first,
    query kb2 "cardio" 2 = Ok results ∧
    query kb2 "cardio" 1 = Ok first ∧ first `prefix_of` results.
Proof.
  destruct (query kb2 "cardio" 2) as [results|] eqn:Hq; [|vm_compute in Hq; discriminate].
  destruct (query_prefix kb2 "cardio" 1 2 results ltac:(lia) Hq) as (first & Hf & Hp).
  by exists results, first.
Defined.

(** X13, witness. *)
Lemma add_unseen_until_rebuild_witness :
  query (add "yoga" "gym" "c" kb2) "yoga" 8 = query kb2 "yoga" 8.
Proof. apply add_unseen_until_rebuild, reachable_kb2. Defined.

(** X14, witness. *)
Lemma reported_scores_witness :
  ∃ results,
    query kb2 "cardio" 8 = Ok results ∧
    Forall (λ h, (floor <= score h)%Q ∧ Qden (score h) = 10000%positive) results.
Proof.
  destruct (query kb2 "cardio" 8) as [results|] eqn:Hq; [|vm_compute in Hq; discriminate].
  exists results. split; [done|]. by apply (reported_scores kb2 "cardio" 8).
Defined.

(** X15, witness. *)
Lemma save_elsewhere_witness :
  load "b" (save "a" kb2 ∅) = load "b" (∅ : gmap (string * string) file) ∧
  load "a" (save "a" kb3 (save "a" kb2 ∅)) = Ok kb3.
Proof.
  destruct (save_elsewhere "a" "b" kb2 kb3 ∅) as [Hother Hlast].
  split; [apply Hother; discriminate|exact Hlast].
Defined.

(** X16, witness. *)
Lemma query_count_witness :
  ∃ first results,
    query kb7 "cardio" 6 = Ok first ∧ query kb7 "cardio" 8 = Ok results ∧
    length first = Nat.min (Z.to_nat 6) (length results).
Proof.
  destruct (query kb7 "cardio" 6) as [first|] eqn:H6; [|vm_compute in H6; discriminate].
  destruct (query kb7 "cardio" 8) as [results|] eqn:H8; [|vm_compute in H8; discriminate].
  destruct (query_count kb7 "cardio" 6 8 first results reachable_kb7 ltac:(lia) H6 H8)
    as (Hmin & _).
  by exists first, results.
Defined.

(** X17, witness. *)
Lemma col_finds_witness :
  ∃ col,
    Chunks._col Chunks.clean_ascii ["Age"; "Weight (kg)"; "weight_kg"]
      ["weight_(kg)"; "weight_kg"] = Some col ∧
    Chunks.clean_ascii col = Chunks.clean_ascii "weight_(kg)".
Proof.
  destruct (Chunks.col_finds Chunks.clean_ascii ["Age"; "Weight (kg)"; "weight_kg"]
              ["weight_(kg)"; "weight_kg"]) as (_ & _ & Hfirst).
  destruct (Hfirst "weight_(kg)" ["weight_kg"] eq_refl) as [_ Hfuzzy].
  apply (Hfuzzy "Weight (kg)").
  - decide_by_compute.
  - decide_by_compute.
  - reflexivity.
Defined.

(** The two-document engine after one turn on session [s]. *)
Definition engine_after_turn : ChatEngine.t :=
  (ChatEngine.chat (during great_workout) "cardio" "s" engine2).2.

(** X18, witness. *)
Lemma clear_history_forgets_witness :
  ChatEngine.session (ChatEngine.clear_history "s" engine_after_turn) "s" = [] ∧
  ChatEngine.clear_history "t" engine2 = engine2.
Proof.
  destruct (clear_history_forgets "s" engine_after_turn) as (Hempty & _).
  destruct (clear_history_forgets "t" engine2) as (_ & _ & Hunknown & _).
  split; [exact Hempty|]. apply Hunknown. reflexivity.
Defined.

(** X19, witness. *)
Lemma sessions_independent_witness :
  ChatEngine.session
    (ChatEngine.chat (during great_workout) "yoga" "t" engine_after_turn).2 "s"
  = ChatEngine.session engine_after_turn "s" ∧
  ChatEngine.session
    (ChatEngine.stream_chat (during great_workout) "yoga" "t" engine_after_turn).2 "s"
  = ChatEngine.session engine_after_turn "s".
Proof. apply sessions_independent. discriminate. Defined.

(** X20, witness. *)
Lemma prompt_window_witness :
  let old := {| ChatEngine.msg_role := ChatEngine.user; ChatEngine.content := "old" |} in
  let new := {| ChatEngine.msg_role := ChatEngine.user; ChatEngine.content := "new" |} in
  ChatEngine._build_prompt engine2 "cardio" "" ([old; old] ++ replicate 10 new)
  = ChatEngine._build_prompt engine2 "cardio" "" (replicate 10 new).
Proof. intros old new. apply prompt_window; reflexivity. Defined.

(** X21, witness. *)
Lemma context_used_iff_witness :
  ∃ r,
    (ChatEngine.chat (during great_workout) "cardio" "s" engine2).1 = Ok r ∧
    (ChatEngine.context_used r = true ↔
     ∃ base first rest,
       ChatEngine.kb engine2 = Some base ∧
       query base "cardio" ChatEngine.retrieve_top_k = Ok (first :: rest)).
Proof.
  destruct ((ChatEngine.chat (during great_workout) "cardio" "s" engine2).1)
    as [r|] eqn:Hr; [|vm_compute in Hr; discriminate].
  exists r. split; [done|]. by apply (context_used_iff _ _ _ _ _ Hr).
Defined.

(** X22, witness. *)
Lemma chat_hosted_unreachable_witness :
  ChatEngine.chat (during unreachable) "cardio" "s" groq_engine
  = (Raise (RequestsConnectionError "Connection refused"), groq_engine).
Proof.
  apply (chat_hosted_unreachable (during unreachable) "cardio" "s" groq_engine
           ("[gym] cardio" +:+ nl +:+ nl +:+ "[gym] cardio")).
  - discriminate.
  - vm_compute. reflexivity.
  - reflexivity.
Defined.

(** X23, witness. *)
Lemma stream_chat_hosted_reports_failure_witness :
  ChatEngine.stream_chat (during unreachable) "cardio" "s" groq_engine
  = ([ChatEngine.Token "[Error] Connection refused";
      ChatEngine.Done (py_round (ChatEngine.elapsed_ms (during unreachable)) 1)
        "llama-3.1-8b-instant"], None,
     ChatEngine.remember groq_engine "s" "cardio" "[Error] Connection refused").
Proof.
  apply (stream_chat_hosted_reports_failure (during unreachable) "cardio" "s" groq_engine
           ("[gym] cardio" +:+ nl +:+ nl +:+ "[gym] cardio") "Connection refused").
  - discriminate.
  - vm_compute. reflexivity.
  - left. reflexivity.
Defined.

(** X24, witness. *)
Lemma chunks_retrieved_counts_witness :
  ∃ r retrieved,
    (ChatEngine.chat (during great_workout) "cardio" "s" engine7).1 = Ok r ∧
    query kb7 "cardio" ChatEngine.retrieve_top_k = Ok retrieved ∧
    length retrieved = Nat.min 6 (ChatEngine.chunks_retrieved r) ∧
    (ChatEngine.chunks_retrieved r ≤ 8)%nat.
Proof.
  destruct ((ChatEngine.chat (during great_workout) "cardio" "s" engine7).1)
    as [r|] eqn:Hr; [|vm_compute in Hr; discriminate].
  pose proof (chunks_retrieved_counts _ _ _ _ _ retrieval_ready_engine7 Hr) as Hcount.
  change (ChatEngine.kb engine7) with (Some kb7) in Hcount.
  destruct Hcount as (retrieved & Hq & Hmin & Hmax). by exists r, retrieved.
Defined.

(** X25, witness. *)
Lemma create_chat_engine_kb_witness :
  (∀ engine,
     create_chat_engine ∅ ∅ (save kb_path kb2 ∅) = Ok engine →
     ChatEngine.kb engine = Some kb2) ∧
  (∀ engine,
     create_chat_engine ∅ ∅ (delete (kb_path, vectorizer_file) (save kb_path kb2 ∅))
     = Ok engine →
     ChatEngine.kb engine = None).
Proof.
  split.
  - intros engine. by apply (create_chat_engine_kb ∅ ∅ ∅).
  - intros engine Hengine.
    destruct (create_chat_engine_kb ∅ ∅
                (delete (kb_path, vectorizer_file) (save kb_path kb2 ∅)))
      as (_ & Hkb & _).
    destruct (Hkb engine Hengine) as (_ & _ & _ & _ & Hmissing).
    apply Hmissing. left. apply lookup_delete_eq.
Defined.

(** X26, witness. *)
Lemma startup_without_engine_witness :
  startup ∅ {[ "llm" := {[ "provider" := "anthropic" ]} ]}
    (KnowledgeBase.save kb_path kb2 ∅) offline
  = (None, None, None) ∧
  (∃ client,
     startup ∅ {[ "llm" := {[ "provider" := "Groq" ]} ]} ∅ offline
     = (Some client, Some (ChatEngine.init client None),
        Some {| llm_ok := false; llm_provider := "groq";
                llm_model := "llama-3.1-8b-instant"; kb_chunks := None |})) ∧
  chat None (during great_workout) "cardio" "s" false
  = (HTTPException 503 not_initialized, None).
Proof.
  destruct (startup_without_engine ∅ {[ "llm" := {[ "provider" := "anthropic" ]} ]}
              (KnowledgeBase.save kb_path kb2 ∅) offline)
    as (_ & Hnone & _ & Hchat & _).
  destruct (startup_without_engine ∅ {[ "llm" := {[ "provider" := "Groq" ]} ]} ∅ offline)
    as (_ & _ & Hsome & _).
  split_and!.
  - apply Hnone. decide_by_compute.
  - destruct Hsome as (client & Hclient & Hstarted);
      [decide_by_compute|reflexivity|].
    exists client. rewrite Hstarted. vm_compute in Hclient.
    injection Hclient as <-. reflexivity.
  - apply Hchat.
Defined.

End MoreExamples.
